(** * Location tracking and update delivery of the UMMA-NA mobile client

    A shallow embedding of [src/services/LocationService.ts] and of the retry
    loop of [src/utils/LocationErrorHandling.ts].

    JavaScript [async] functions are embedded as trees of a small monad
    [Async]: a synchronous operation on the module-level variables (or on the
    timer queue) continues at once, an awaited platform call suspends the
    function, and a rejected promise is the tree [Throw] unless a
    [try_catch] intercepts it.  The platform (position source, transmitter,
    key-value storage) is an explicit [World] with an [Env] of outcomes. *)

From Stdlib Require Import ZArith String List Bool Lia.
Import ListNotations.
Open Scope Z_scope.

(** ** Data model *)

(** [Location.Accuracy] of expo-location, restricted to the three tiers the
    code names ([HIGH_ACCURACY], [NORMAL_ACCURACY], [LOW_ACCURACY]). *)
Inductive Accuracy : Type := Low | Balanced | High.

(** Numeric value of the tier in the [Location.Accuracy] enumeration. *)
Definition rank (a : Accuracy) : Z :=
  match a with Low => 2 | Balanced => 3 | High => 4 end.

Definition Accuracy_eqb (a b : Accuracy) : bool := rank a =? rank b.

Definition NORMAL_ACCURACY : Accuracy := Balanced.
Definition HIGH_ACCURACY : Accuracy := High.
Definition LOW_ACCURACY : Accuracy := Low.

(** Tracking intervals (in milliseconds). *)
Definition FOREGROUND_INTERVAL : Z := 2 * 60 * 1000.
Definition BACKGROUND_INTERVAL : Z := 10 * 60 * 1000.
Definition AVAILABLE_DRIVER_INTERVAL : Z := 5 * 60 * 1000.
Definition UNAVAILABLE_DRIVER_INTERVAL : Z := 15 * 60 * 1000.

(** Distance thresholds (in meters). *)
Definition AVAILABLE_DISTANCE_FILTER : Z := 50.
Definition UNAVAILABLE_DISTANCE_FILTER : Z := 250.

Definition MAX_RETRIES : Z := 3.

(** Coordinates are only passed through by the code; they are kept as
    integers (fixed-point degrees). *)
Record Coords : Type := mkCoords { latitude : Z; longitude : Z }.

(** [Location.LocationObject]: a device sample. *)
Record LocationObject : Type := mkLocation { coords : Coords; timestamp : Z }.

(** What [JSON.parse] gives back for the item ['lastKnownLocation']: the
    [coords] member is tested by the readers, so it may be missing. *)
Record StoredLocation : Type :=
  mkStored { stored_coords : option Coords; stored_timestamp : Z }.

Definition UserId : Type := string.

(** JavaScript truthiness of a string. *)
Definition truthy (s : string) : bool :=
  match s with EmptyString => false | _ => true end.

Inductive AppStateStatus : Type := Active | Background | Inactive.
Inductive PlatformOS : Type := Ios | Android.

Definition TimerId : Type := nat.

(** The options object handed to [Location.watchPositionAsync]. *)
Record WatchOptions : Type :=
  mkWatch { w_accuracy : Accuracy; w_distanceInterval : Z; w_timeInterval : Z }.

(** ** The module-level variables of LocationService.ts *)

Record Mod : Type := mkMod {
  locationSubscription : bool;          (* a subscription handle, or null *)
  isTracking : bool;
  lastUpdateTime : Z;
  pendingImmediateUpdate : bool;
  locationUpdateTimeout : option TimerId;
  retryCount : Z;
  appState : AppStateStatus
}.

(** [let] initialisers of the module. *)
Definition initialMod : Mod :=
  mkMod false false 0 false None 0 Active.

Definition set_locationSubscription (v : bool) (m : Mod) : Mod :=
  mkMod v (isTracking m) (lastUpdateTime m) (pendingImmediateUpdate m)
        (locationUpdateTimeout m) (retryCount m) (appState m).
Definition set_isTracking (v : bool) (m : Mod) : Mod :=
  mkMod (locationSubscription m) v (lastUpdateTime m) (pendingImmediateUpdate m)
        (locationUpdateTimeout m) (retryCount m) (appState m).
Definition set_lastUpdateTime (v : Z) (m : Mod) : Mod :=
  mkMod (locationSubscription m) (isTracking m) v (pendingImmediateUpdate m)
        (locationUpdateTimeout m) (retryCount m) (appState m).
Definition set_pendingImmediateUpdate (v : bool) (m : Mod) : Mod :=
  mkMod (locationSubscription m) (isTracking m) (lastUpdateTime m) v
        (locationUpdateTimeout m) (retryCount m) (appState m).
Definition set_locationUpdateTimeout (v : option TimerId) (m : Mod) : Mod :=
  mkMod (locationSubscription m) (isTracking m) (lastUpdateTime m)
        (pendingImmediateUpdate m) v (retryCount m) (appState m).
Definition set_retryCount (v : Z) (m : Mod) : Mod :=
  mkMod (locationSubscription m) (isTracking m) (lastUpdateTime m)
        (pendingImmediateUpdate m) (locationUpdateTimeout m) v (appState m).
Definition set_appState (v : AppStateStatus) (m : Mod) : Mod :=
  mkMod (locationSubscription m) (isTracking m) (lastUpdateTime m)
        (pendingImmediateUpdate m) (locationUpdateTimeout m) (retryCount m) v.

(** Task names of the module. *)
Inductive TaskName : Type :=
| LOCATION_TRACKING_TASK
| BACKGROUND_FETCH_TASK
| IMMEDIATE_UPDATE_TASK.

Definition TaskName_eqb (a b : TaskName) : bool :=
  match a, b with
  | LOCATION_TRACKING_TASK, LOCATION_TRACKING_TASK => true
  | BACKGROUND_FETCH_TASK, BACKGROUND_FETCH_TASK => true
  | IMMEDIATE_UPDATE_TASK, IMMEDIATE_UPDATE_TASK => true
  | _, _ => false
  end.

(** ** Asynchronous programs *)

(** Awaited calls: each is a suspension point of the calling function.
    Most are calls of the platform libraries.  [HasAnyLocationPermission] and
    [RequestPermissions] (methods of the service) and the last three
    (functions of LocationErrorHandling.ts) only query the platform and the
    user; they are taken as calls, answered by the environment. *)
Inductive Call : Type -> Type :=
| GetCurrentPositionAsync (accuracy : Accuracy) : Call LocationObject
| SetItem (v : StoredLocation) : Call unit
| GetItem : Call (option StoredLocation)
| UpdateDriverLocation (userId : UserId) (lat lng : Z) : Call unit
| Delay (ms : Z) : Call unit
| HasAnyLocationPermission : Call bool
| RequestPermissions : Call bool
| IsTaskRegisteredAsync (t : TaskName) : Call bool
| RegisterTaskAsync (t : TaskName) (minimumInterval : Z) : Call unit
| WatchPositionAsync (userId : UserId) (o : WatchOptions) : Call unit
| SubscriptionRemove : Call unit
| HasStartedLocationUpdatesAsync : Call bool
| StopLocationUpdatesAsync : Call unit
| RequestLocationPermissionsWithErrorHandling : Call bool
| ShowLocationErrorAlert : Call bool
| HandleLocationError : Call bool.

(** Synchronous operations: module variables, timers, clock, platform. *)
Inductive SyncOp : Type -> Type :=
| ReadMod : SyncOp Mod
| WriteMod (f : Mod -> Mod) : SyncOp unit
| SetTimeout (callback : Mod -> Mod) (ms : Z) : SyncOp TimerId
| ClearTimeout (t : TimerId) : SyncOp unit
| DateNow : SyncOp Z
| PlatformOs : SyncOp PlatformOS.

Inductive Async (A : Type) : Type :=
| Ret (a : A)
| Throw
| Diverge
| Sync {X : Type} (op : SyncOp X) (k : X -> Async A)
| Await {X : Type} (c : Call X) (k : option X -> Async A).

Arguments Ret {A} a.
Arguments Throw {A}.
Arguments Diverge {A}.
Arguments Sync {A X} op k.
Arguments Await {A X} c k.

Fixpoint bind {A B : Type} (p : Async A) (f : A -> Async B) : Async B :=
  match p with
  | Ret a => f a
  | Throw => Throw
  | Diverge => Diverge
  | Sync op k => Sync op (fun x => bind (k x) f)
  | Await c k => Await c (fun r => bind (k r) f)
  end.

(** [try { body } catch { handler }]. *)
Fixpoint try_catch {A : Type} (body handler : Async A) : Async A :=
  match body with
  | Ret a => Ret a
  | Throw => handler
  | Diverge => Diverge
  | Sync op k => Sync op (fun x => try_catch (k x) handler)
  | Await c k => Await c (fun r => try_catch (k r) handler)
  end.

(** [await c]: a rejected promise throws. *)
Definition await {X : Type} (c : Call X) : Async X :=
  Await c (fun r => match r with Some x => Ret x | None => Throw end).

Definition sync {X : Type} (op : SyncOp X) : Async X := Sync op Ret.

Declare Scope async_scope.
Delimit Scope async_scope with async.
Notation "x <- c1 ;; c2" := (bind c1 (fun x => c2))
  (at level 61, c1 at next level, right associativity) : async_scope.
Notation "c1 ;; c2" := (bind c1 (fun _ => c2))
  (at level 61, right associativity) : async_scope.
Open Scope async_scope.

(** ** The world the programs run in *)

(** Outcomes chosen by the environment, indexed by the number of earlier
    calls of the same kind. *)
Record Env : Type := mkEnv {
  gps : nat -> Accuracy -> option LocationObject;  (* position source *)
  net : nat -> bool;                               (* transmitter resolves *)
  disk : nat -> bool;                              (* AsyncStorage resolves *)
  os : nat -> option bool                          (* other platform calls *)
}.

Record World : Type := mkWorld {
  env : Env;
  platform : PlatformOS;                 (* Platform.OS *)
  vars : Mod;
  item : option StoredLocation;          (* AsyncStorage 'lastKnownLocation' *)
  timers : list (TimerId * (Z * (Mod -> Mod)));   (* armed: id, due, callback *)
  next_timer : TimerId;
  clock : Z;                             (* Date.now() *)
  watch : option (UserId * WatchOptions);   (* active position watch *)
  bg_updates : bool;                     (* location updates task started *)
  registered : list TaskName;
  n_gps : nat; n_net : nat; n_disk : nat; n_os : nat
}.

Definition with_vars (m : Mod) (w : World) : World :=
  mkWorld (env w) (platform w) m (item w) (timers w) (next_timer w) (clock w)
          (watch w) (bg_updates w) (registered w)
          (n_gps w) (n_net w) (n_disk w) (n_os w).
Definition with_item (i : option StoredLocation) (w : World) : World :=
  mkWorld (env w) (platform w) (vars w) i (timers w) (next_timer w) (clock w)
          (watch w) (bg_updates w) (registered w)
          (n_gps w) (n_net w) (n_disk w) (n_os w).
Definition with_timers (t : list (TimerId * (Z * (Mod -> Mod)))) (n : TimerId)
    (w : World) : World :=
  mkWorld (env w) (platform w) (vars w) (item w) t n (clock w)
          (watch w) (bg_updates w) (registered w)
          (n_gps w) (n_net w) (n_disk w) (n_os w).
Definition with_clock (c : Z) (w : World) : World :=
  mkWorld (env w) (platform w) (vars w) (item w) (timers w) (next_timer w) c
          (watch w) (bg_updates w) (registered w)
          (n_gps w) (n_net w) (n_disk w) (n_os w).
Definition with_watch (x : option (UserId * WatchOptions)) (w : World) : World :=
  mkWorld (env w) (platform w) (vars w) (item w) (timers w) (next_timer w)
          (clock w) x (bg_updates w) (registered w)
          (n_gps w) (n_net w) (n_disk w) (n_os w).
Definition with_bg_updates (b : bool) (w : World) : World :=
  mkWorld (env w) (platform w) (vars w) (item w) (timers w) (next_timer w)
          (clock w) (watch w) b (registered w)
          (n_gps w) (n_net w) (n_disk w) (n_os w).
Definition with_registered (l : list TaskName) (w : World) : World :=
  mkWorld (env w) (platform w) (vars w) (item w) (timers w) (next_timer w)
          (clock w) (watch w) (bg_updates w) l
          (n_gps w) (n_net w) (n_disk w) (n_os w).
Definition tick_gps (w : World) : World :=
  mkWorld (env w) (platform w) (vars w) (item w) (timers w) (next_timer w)
          (clock w) (watch w) (bg_updates w) (registered w)
          (S (n_gps w)) (n_net w) (n_disk w) (n_os w).
Definition tick_net (w : World) : World :=
  mkWorld (env w) (platform w) (vars w) (item w) (timers w) (next_timer w)
          (clock w) (watch w) (bg_updates w) (registered w)
          (n_gps w) (S (n_net w)) (n_disk w) (n_os w).
Definition tick_disk (w : World) : World :=
  mkWorld (env w) (platform w) (vars w) (item w) (timers w) (next_timer w)
          (clock w) (watch w) (bg_updates w) (registered w)
          (n_gps w) (n_net w) (S (n_disk w)) (n_os w).
Definition tick_os (w : World) : World :=
  mkWorld (env w) (platform w) (vars w) (item w) (timers w) (next_timer w)
          (clock w) (watch w) (bg_updates w) (registered w)
          (n_gps w) (n_net w) (n_disk w) (S (n_os w)).

Inductive Event : Type :=
| EvAcquire (a : Accuracy) (r : option LocationObject)
| EvSetItem (v : StoredLocation) (ok : bool)
| EvGetItem (r : option (option StoredLocation))
| EvSend (userId : UserId) (lat lng : Z) (ok : bool)
| EvDelay (ms : Z)
| EvWatch (userId : UserId) (o : WatchOptions) (ok : bool)
| EvRegister (t : TaskName) (minimumInterval : Z) (ok : bool)
| EvOs (r : option bool).

Inductive Outcome (A : Type) : Type :=
| Returned (a : A)
| Thrown
| Diverged.

Arguments Returned {A} a.
Arguments Thrown {A}.
Arguments Diverged {A}.

(** Timers whose due time has come run their callback on the module
    variables and leave the queue. *)
Fixpoint fire_due (now : Z) (ts : list (TimerId * (Z * (Mod -> Mod))))
    (m : Mod) : Mod * list (TimerId * (Z * (Mod -> Mod))) :=
  match ts with
  | [] => (m, [])
  | (id, (due, cb)) :: rest =>
      if due <=? now
      then fire_due now rest (cb m)
      else let '(m', rest') := fire_due now rest m in (m', (id, (due, cb)) :: rest')
  end.

(** Time passes: the clock advances and the due timers fire. *)
Definition elapse (dt : Z) (w : World) : World :=
  let now := clock w + Z.max 0 dt in
  let fired := fire_due now (timers w) (vars w) in
  with_vars (fst fired)
            (with_timers (snd fired) (next_timer w) (with_clock now w)).

Definition resolved (ok : bool) : option unit := if ok then Some tt else None.

(** The effect of an awaited call, at the moment it settles. *)
Definition perform {X : Type} (c : Call X) (w : World)
    : option X * World * Event :=
  match c in Call X return option X * World * Event with
  | GetCurrentPositionAsync a =>
      let r := gps (env w) (n_gps w) a in
      (r, tick_gps w, EvAcquire a r)
  | SetItem v =>
      let ok := disk (env w) (n_disk w) in
      (resolved ok, tick_disk (if ok then with_item (Some v) w else w),
       EvSetItem v ok)
  | GetItem =>
      let r := if disk (env w) (n_disk w) then Some (item w) else None in
      (r, tick_disk w, EvGetItem r)
  | UpdateDriverLocation u lat lng =>
      let ok := net (env w) (n_net w) in
      (resolved ok, tick_net w, EvSend u lat lng ok)
  | Delay ms => (Some tt, elapse ms w, EvDelay ms)
  | HasAnyLocationPermission =>
      (* catches its own errors and answers false *)
      let r := os (env w) (n_os w) in
      (Some (match r with Some b => b | None => false end), tick_os w, EvOs r)
  | RequestPermissions =>
      let r := os (env w) (n_os w) in
      (Some (match r with Some b => b | None => false end), tick_os w, EvOs r)
  | IsTaskRegisteredAsync t =>
      let r := os (env w) (n_os w) in
      (match r with
       | Some _ => Some (existsb (TaskName_eqb t) (registered w))
       | None => None
       end, tick_os w, EvOs r)
  | RegisterTaskAsync t i =>
      let r := os (env w) (n_os w) in
      match r with
      | Some _ => (Some tt, tick_os (with_registered (t :: registered w) w),
                   EvRegister t i true)
      | None => (None, tick_os w, EvRegister t i false)
      end
  | WatchPositionAsync u o =>
      let r := os (env w) (n_os w) in
      match r with
      | Some _ => (Some tt, tick_os (with_watch (Some (u, o)) w), EvWatch u o true)
      | None => (None, tick_os w, EvWatch u o false)
      end
  | SubscriptionRemove =>
      let r := os (env w) (n_os w) in
      match r with
      | Some _ => (Some tt, tick_os (with_watch None w), EvOs r)
      | None => (None, tick_os w, EvOs r)
      end
  | HasStartedLocationUpdatesAsync =>
      let r := os (env w) (n_os w) in
      (match r with Some _ => Some (bg_updates w) | None => None end,
       tick_os w, EvOs r)
  | StopLocationUpdatesAsync =>
      let r := os (env w) (n_os w) in
      match r with
      | Some _ => (Some tt, tick_os (with_bg_updates false w), EvOs r)
      | None => (None, tick_os w, EvOs r)
      end
  | RequestLocationPermissionsWithErrorHandling =>
      (* catches its own errors and answers false *)
      let r := os (env w) (n_os w) in
      (Some (match r with Some b => b | None => false end), tick_os w, EvOs r)
  | ShowLocationErrorAlert =>
      let r := os (env w) (n_os w) in (r, tick_os w, EvOs r)
  | HandleLocationError =>
      let r := os (env w) (n_os w) in (r, tick_os w, EvOs r)
  end.

(** The effect of a synchronous operation. *)
Definition step_sync {X : Type} (op : SyncOp X) (w : World) : X * World :=
  match op in SyncOp X return X * World with
  | ReadMod => (vars w, w)
  | WriteMod f => (tt, with_vars (f (vars w)) w)
  | SetTimeout cb ms =>
      let id := next_timer w in
      (id, with_timers (timers w ++ [(id, (clock w + Z.max 0 ms, cb))]) (S id) w)
  | ClearTimeout t =>
      (tt, with_timers
             (filter (fun e => negb (Nat.eqb (fst e) t)) (timers w))
             (next_timer w) w)
  | DateNow => (clock w, w)
  | PlatformOs => (platform w, w)
  end.

(** An invocation run to completion with no other code in between: the
    outcome, the final world and the awaited calls in order. *)
Fixpoint run {A : Type} (p : Async A) (w : World)
    : Outcome A * World * list Event :=
  match p with
  | Ret a => (Returned a, w, [])
  | Throw => (Thrown, w, [])
  | Diverge => (Diverged, w, [])
  | Sync op k => let '(x, w') := step_sync op w in run (k x) w'
  | Await c k =>
      let '(r, w', e) := perform c w in
      let '(o, w'', es) := run (k r) w' in
      (o, w'', e :: es)
  end.

Definition outcome {A : Type} (x : Outcome A * World * list Event) : Outcome A :=
  fst (fst x).
Definition final {A : Type} (x : Outcome A * World * list Event) : World :=
  snd (fst x).
Definition events {A : Type} (x : Outcome A * World * list Event) : list Event :=
  snd x.

(** ** LocationService.ts *)

(** Save the last known location to storage for fallback. *)
Definition saveLastKnownLocation (location : LocationObject) : Async unit :=
  try_catch
    (await (SetItem (mkStored (Some (coords location)) (timestamp location))))
    (Ret tt).

(** Get the last known location from storage. *)
Definition getLastKnownLocation : Async (option StoredLocation) :=
  try_catch
    (locationString <- await GetItem ;;
     match locationString with
     | Some l => Ret (Some l)
     | None => Ret None
     end)
    (Ret None).

(** [updateDriverLocation(userId, location.coords.latitude,
    location.coords.longitude)]. *)
Definition updateDriverLocation (userId : UserId) (c : Coords) : Async unit :=
  await (UpdateDriverLocation userId (latitude c) (longitude c)).

(** [x && x.coords] on what [getLastKnownLocation] returned. *)
Definition usable (l : option StoredLocation) : option Coords :=
  match l with
  | Some s => stored_coords s
  | None => None
  end.

(** Accuracy, distance filter and interval of the foreground watch, from the
    driver's availability. *)
Definition foregroundOptions (isAvailable : bool) : WatchOptions :=
  let accuracy := if isAvailable then NORMAL_ACCURACY else LOW_ACCURACY in
  let timeInterval :=
    if isAvailable then FOREGROUND_INTERVAL else BACKGROUND_INTERVAL in
  let distanceInterval :=
    if isAvailable then AVAILABLE_DISTANCE_FILTER
    else UNAVAILABLE_DISTANCE_FILTER in
  mkWatch accuracy distanceInterval timeInterval.

(** The same derivation in [startBackgroundTracking]. *)
Definition backgroundOptions (isAvailable : bool) : WatchOptions :=
  let accuracy := if isAvailable then NORMAL_ACCURACY else LOW_ACCURACY in
  let timeInterval :=
    if isAvailable then AVAILABLE_DRIVER_INTERVAL
    else UNAVAILABLE_DRIVER_INTERVAL in
  let distanceInterval :=
    if isAvailable then AVAILABLE_DISTANCE_FILTER
    else UNAVAILABLE_DISTANCE_FILTER in
  mkWatch accuracy distanceInterval timeInterval.

(** Stop all location tracking. *)
Definition stopTracking : Async unit :=
  try_catch
    (m <- sync ReadMod ;;
     (if locationSubscription m
      then await SubscriptionRemove ;;
           sync (WriteMod (set_locationSubscription false))
      else Ret tt) ;;
     isBgTaskRunning <- await HasStartedLocationUpdatesAsync ;;
     (if isBgTaskRunning then await StopLocationUpdatesAsync else Ret tt) ;;
     sync (WriteMod (set_isTracking false)) ;;
     (* Clear any pending update timeout *)
     m <- sync ReadMod ;;
     match locationUpdateTimeout m with
     | Some t =>
         sync (ClearTimeout t) ;;
         sync (WriteMod (set_locationUpdateTimeout None))
     | None => Ret tt
     end)
    (Ret tt).

(** The callback handed to [Location.watchPositionAsync]. *)
Definition watchCallback (userId : UserId) (location : LocationObject)
    : Async unit :=
  try_catch
    (saveLastKnownLocation location ;;
     updateDriverLocation userId (coords location) ;;
     now <- sync DateNow ;;
     sync (WriteMod (set_lastUpdateTime now)))
    (Ret tt).

(** Start tracking location in the foreground. *)
Definition startForegroundTracking (userId : UserId) (isAvailable : bool)
    : Async bool :=
  try_catch
    (hasPermissions <- await HasAnyLocationPermission ;;
     granted <- (if negb hasPermissions then await RequestPermissions
                 else Ret true) ;;
     if negb granted then Ret false else
     stopTracking ;;
     isRegistered <- await (IsTaskRegisteredAsync BACKGROUND_FETCH_TASK) ;;
     (if negb isRegistered
      then await (RegisterTaskAsync BACKGROUND_FETCH_TASK
                    ((if isAvailable then AVAILABLE_DRIVER_INTERVAL
                      else UNAVAILABLE_DRIVER_INTERVAL) / 1000))
      else Ret tt) ;;
     isImmediateRegistered <- await (IsTaskRegisteredAsync IMMEDIATE_UPDATE_TASK) ;;
     (if negb isImmediateRegistered
      then await (RegisterTaskAsync IMMEDIATE_UPDATE_TASK 60)
      else Ret tt) ;;
     await (WatchPositionAsync userId (foregroundOptions isAvailable)) ;;
     sync (WriteMod (set_locationSubscription true)) ;;
     sync (WriteMod (set_isTracking true)) ;;
     Ret true)
    (Ret false).

(** The body of the guarded branch of the error handler of
    [requestImmediateUpdate]: true when it returned true. *)
Definition fallbackAfterRetries (userId : UserId) : Async bool :=
  fallbackLocation <- getLastKnownLocation ;;
  match usable fallbackLocation with
  | Some c =>
      updateDriverLocation userId c ;;
      sync (WriteMod (set_pendingImmediateUpdate false)) ;;
      Ret true
  | None => Ret false
  end.

(** The [try] block of [requestImmediateUpdate], after its first two
    assignments. *)
Definition immediateUpdateAttempts (userId : UserId) : Async bool :=
  m <- sync ReadMod ;;
  (* If app is in foreground, try direct update *)
  returned <-
    match appState m with
    | Active =>
        try_catch
          (location <- await (GetCurrentPositionAsync HIGH_ACCURACY) ;;
           saveLastKnownLocation location ;;
           updateDriverLocation userId (coords location) ;;
           now <- sync DateNow ;;
           sync (WriteMod (set_lastUpdateTime now)) ;;
           sync (WriteMod (set_pendingImmediateUpdate false)) ;;
           Ret true)
          (Ret false)
    | _ => Ret false
    end ;;
  if returned : bool then Ret true else
  (* Try alternate approach for background updates *)
  returned <-
    try_catch
      (p <- sync PlatformOs ;;
       match p with
       | Ios =>
           location <- await (GetCurrentPositionAsync HIGH_ACCURACY) ;;
           saveLastKnownLocation location ;;
           if truthy userId
           then updateDriverLocation userId (coords location) ;;
                sync (WriteMod (set_pendingImmediateUpdate false)) ;;
                Ret true
           else Ret false
       | Android => Ret false
       end)
      (Ret false) ;;
  if returned : bool then Ret true else
  (* If we're in background or task methods failed, use the flag *)
  sync (WriteMod (set_pendingImmediateUpdate true)) ;;
  (* Send fallback location from storage if available *)
  fallbackLocation <- getLastKnownLocation ;;
  match usable fallbackLocation with
  | Some c => updateDriverLocation userId c
  | None => Ret tt
  end ;;
  (* Set a timeout to reset the flag in case the update never happens *)
  m <- sync ReadMod ;;
  match locationUpdateTimeout m with
  | Some t => sync (ClearTimeout t)
  | None => Ret tt
  end ;;
  t <- sync (SetTimeout (set_pendingImmediateUpdate false) 60000) ;;
  sync (WriteMod (set_locationUpdateTimeout (Some t))) ;;
  Ret true.

(** The [try] block of [requestImmediateUpdate]. *)
Definition immediateUpdateTry (userId : UserId) : Async bool :=
  sync (WriteMod (set_pendingImmediateUpdate true)) ;;
  sync (WriteMod (set_retryCount 0)) ;;
  immediateUpdateAttempts userId.

(** The [catch] block of [requestImmediateUpdate], over the code of its
    guarded branch. *)
Definition immediateUpdateCatch (branch : Async bool) : Async bool :=
  m <- sync ReadMod ;;
  (* Try to use fallback location after a few failed attempts *)
  returned <-
    (if retryCount m >=? MAX_RETRIES
     then try_catch branch (Ret false)
     else Ret false) ;;
  if returned : bool then Ret true else
  sync (WriteMod (fun m => set_retryCount (retryCount m + 1) m)) ;;
  sync (WriteMod (set_pendingImmediateUpdate false)) ;;
  Ret false.

Definition requestImmediateUpdateWith (branch : Async bool) (userId : UserId)
    : Async bool :=
  try_catch (immediateUpdateTry userId) (immediateUpdateCatch branch).

(** Request an immediate location update. *)
Definition requestImmediateUpdate (userId : UserId) : Async bool :=
  requestImmediateUpdateWith (fallbackAfterRetries userId) userId.

(** One rung of the ladder of [getLocationWithFallback]: the three [try]
    blocks differ in the accuracy only. *)
Definition tryAccuracy (accuracy : Accuracy) (userId : UserId) : Async bool :=
  location <- await (GetCurrentPositionAsync accuracy) ;;
  saveLastKnownLocation location ;;
  updateDriverLocation userId (coords location) ;;
  Ret true.

(** Retry with progressively lower accuracy if high accuracy fails. *)
Definition getLocationWithFallback (userId : UserId) : Async bool :=
  try_catch (tryAccuracy HIGH_ACCURACY userId)
    (try_catch (tryAccuracy NORMAL_ACCURACY userId)
       (try_catch (tryAccuracy LOW_ACCURACY userId)
          ((* Try to use last known location *)
           lastLocation <- getLastKnownLocation ;;
           match usable lastLocation with
           | Some c => updateDriverLocation userId c ;; Ret true
           | None => Ret false
           end))).

(** The listener of [AppState] changes. *)
Definition appStateChanged (nextAppState : AppStateStatus) (w : World) : World :=
  with_vars (set_appState nextAppState (vars w)) w.


(** Check if tracking is active. *)
Definition isTrackingActive (m : Mod) : bool := isTracking m.

(** ** LocationErrorHandling.ts *)

Record LocationErrorHandlingOptions : Type := mkOptions {
  showAlerts : bool;
  attemptRecovery : bool;
  maxRetries : option Z
}.

Definition DEFAULT_OPTIONS : LocationErrorHandlingOptions :=
  mkOptions true true (Some 3).

(** [a || b] on an optional number: [undefined] and [0] are falsy. *)
Definition or_number (a : option Z) (b : Z) : Z :=
  match a with
  | Some n => if n =? 0 then b else n
  | None => b
  end.

(** [options.maxRetries || DEFAULT_OPTIONS.maxRetries || 3]. *)
Definition effectiveMaxRetries (options : LocationErrorHandlingOptions) : Z :=
  or_number (maxRetries options) (or_number (maxRetries DEFAULT_OPTIONS) 3).

(** The [while (retries <= maxRetries)] loop; [accuracy] is
    [locationOptions.accuracy], which the loop overwrites.  The recursion is
    on [fuel], and a loop that outlives it is [Diverge]. *)
Fixpoint positionLoop (fuel : nat) (options : LocationErrorHandlingOptions)
    (maxRetries retries : Z) (accuracy : Accuracy)
    : Async (option LocationObject) :=
  match fuel with
  | O => Diverge
  | S fuel' =>
      if retries <=? maxRetries then
        try_catch
          (location <- await (GetCurrentPositionAsync accuracy) ;;
           Ret (Some location))
          (let retries := retries + 1 in
           (* If we've exceeded max retries, handle the error and return null *)
           if retries >? maxRetries then
             (if showAlerts options
              then await HandleLocationError ;; Ret tt
              else Ret tt) ;;
             Ret None
           else if attemptRecovery options then
             (* Progressive backoff for retries *)
             let waitTime := 1000 * Z.min 3 retries in
             await (Delay waitTime) ;;
             (* Try with lower accuracy if we're on later retry attempts *)
             let accuracy :=
               if (retries >? 1) && Accuracy_eqb accuracy High
               then Balanced else accuracy in
             (* Try with even lower accuracy on final attempt *)
             let accuracy :=
               if (retries =? maxRetries) && Accuracy_eqb accuracy Balanced
               then Low else accuracy in
             positionLoop fuel' options maxRetries retries accuracy
           else
             (* If no recovery attempts, just break and return null *)
             Ret None)
      else Ret None
  end.

(** Iterations of the loop are bounded by [maxRetries + 1]; one more unit
    pays for the last test of the loop condition. *)
Definition loopFuel (maxRetries : Z) : nat := S (Z.to_nat (maxRetries + 1)).

(** Gets current position with retry and error handling; [accuracy] is the
    member of the [locationOptions] argument (default: High). *)
Definition getCurrentPositionWithErrorHandling
    (options : LocationErrorHandlingOptions) (accuracy : Accuracy)
    : Async (option LocationObject) :=
  hasPermission <- await RequestLocationPermissionsWithErrorHandling ;;
  if negb hasPermission then
    (if showAlerts options
     then await ShowLocationErrorAlert ;; Ret tt
     else Ret tt) ;;
    Ret None
  else
    (* Attempt to get location with retries *)
    let retries := 0 in
    let maxRetries := effectiveMaxRetries options in
    positionLoop (loopFuel maxRetries) options maxRetries retries accuracy.

(** ** Observations on a run *)

(** The accuracy tiers of the acquisition attempts, in order. *)
Fixpoint tiers (es : list Event) : list Accuracy :=
  match es with
  | [] => []
  | EvAcquire a _ :: rest => a :: tiers rest
  | _ :: rest => tiers rest
  end.


(** The backoff delays, in order. *)
Fixpoint delays (es : list Event) : list Z :=
  match es with
  | [] => []
  | EvDelay ms :: rest => ms :: delays rest
  | _ :: rest => delays rest
  end.

(** The transmissions, with their result, in order. *)
Fixpoint sends (es : list Event) : list bool :=
  match es with
  | [] => []
  | EvSend _ _ _ ok :: rest => ok :: sends rest
  | _ :: rest => sends rest
  end.

(** The storage writes, in order. *)
Fixpoint writes (es : list Event) : list StoredLocation :=
  match es with
  | [] => []
  | EvSetItem v _ :: rest => v :: writes rest
  | _ :: rest => writes rest
  end.



(** ** Overlapping invocations

    An [async] function runs up to its first [await] when it is called, and
    from one [await] to the next each time it is resumed; the code between
    two awaits is never interleaved with other code.  Invocations that are
    suspended at the same time share the module variables. *)

(** Run the synchronous prefix of a program. *)
Fixpoint settle {A : Type} (p : Async A) (w : World) : Async A * World :=
  match p with
  | Sync op k => let '(x, w') := step_sync op w in settle (k x) w'
  | _ => (p, w)
  end.

Record System : Type := mkSystem {
  world : World;
  pool : list (Async bool);       (* invocations of requestImmediateUpdate *)
  log : list (nat * Event)        (* settled calls, with their invocation *)
}.

Inductive Action : Type :=
| Request (userId : UserId)       (* a call of requestImmediateUpdate *)
| Resume (i : nat)                (* the awaited call of invocation i settles *)
| Elapse (dt : Z).                (* time passes *)

Fixpoint replace_nth {A : Type} (i : nat) (x : A) (l : list A) : list A :=
  match l, i with
  | [], _ => []
  | _ :: t, O => x :: t
  | h :: t, S i' => h :: replace_nth i' x t
  end.

(** One action of the event loop; [request] is the code of
    [requestImmediateUpdate]. *)
Definition act (request : UserId -> Async bool) (a : Action) (s : System)
    : System :=
  match a with
  | Request userId =>
      let '(p, w) := settle (request userId) (world s) in
      mkSystem w (pool s ++ [p]) (log s)
  | Resume i =>
      match nth_error (pool s) i with
      | Some (Await c k) =>
          let '(r, w, e) := perform c (world s) in
          let '(p, w') := settle (k r) w in
          mkSystem w' (replace_nth i p (pool s)) (log s ++ [(i, e)])
      | _ => s
      end
  | Elapse dt => mkSystem (elapse dt (world s)) (pool s) (log s)
  end.

Definition schedule (request : UserId -> Async bool) (acts : list Action)
    (s : System) : System :=
  fold_left (fun s a => act request a s) acts s.

(** What an invocation has answered, if it is over. *)
Definition answer {A : Type} (p : Async A) : option (Outcome A) :=
  match p with
  | Ret a => Some (Returned a)
  | Throw => Some Thrown
  | Diverge => Some Diverged
  | _ => None
  end.

Definition answers (s : System) : list (option (Outcome bool)) :=
  map answer (pool s).

(** The call an invocation is suspended on, as the event of its failure. *)
Definition awaiting {A : Type} (p : Async A) : option Accuracy :=
  match p with
  | Await (GetCurrentPositionAsync a) _ => Some a
  | _ => None
  end.

(** ** Concrete worlds for the examples *)

Definition driver : UserId := "driver-1"%string.

Definition sample (t : Z) : LocationObject := mkLocation (mkCoords 9 7) t.

Definition cached (t : Z) : StoredLocation := mkStored (Some (mkCoords 9 7)) t.

(** A freshly started process. *)
Definition boot (e : Env) (p : PlatformOS) (i : option StoredLocation) : World :=
  mkWorld e p initialMod i [] 1%nat 0 None false [] 0 0 0 0.

(** Everything works. *)
Definition env_ok : Env :=
  mkEnv (fun _ _ => Some (sample 5)) (fun _ => true) (fun _ => true)
        (fun _ => Some true).

(** The position source fails at every tier. *)
Definition env_no_gps : Env :=
  mkEnv (fun _ _ => None) (fun _ => true) (fun _ => true) (fun _ => Some true).


(** Neither the position source nor the transmitter works. *)
Definition env_offline : Env :=
  mkEnv (fun _ _ => None) (fun _ => false) (fun _ => true) (fun _ => Some true).

(** The transmitter fails [k] times and works from then on. *)
Definition env_net_after (k : nat) : Env :=
  mkEnv (fun _ _ => None) (fun n => Nat.leb k n) (fun _ => true)
        (fun _ => Some true).

(** A backgrounded Android process with a cached sample; the transmitter is
    down for the first four transmissions. *)
Definition world_overlap : World :=
  appStateChanged Background (boot (env_net_after 4) Android (Some (cached 7))).

(** Four calls of [requestImmediateUpdate] before any of them is resumed;
    each reads the cache, then each has its transmission fail; the fourth
    is resumed twice more. *)
Definition overlap : list Action :=
  [Request driver; Request driver; Request driver; Request driver;
   Resume 0; Resume 1; Resume 2; Resume 3;
   Resume 0; Resume 1; Resume 2; Resume 3;
   Resume 3; Resume 3].

(** A backgrounded Android process with nothing cached and no position. *)
Definition world_background : World :=
  appStateChanged Background (boot env_no_gps Android None).

(** ** Predicates of the statements *)

(** The store never goes back in time across [saveLastKnownLocation]. *)
Definition timestamp_monotone : Prop :=
  forall (w : World) (location : LocationObject) (old new : StoredLocation),
    item w = Some old ->
    item (final (run (saveLastKnownLocation location) w)) = Some new ->
    stored_timestamp old <= stored_timestamp new.

(** Every awaited call in the tree satisfies [P] and every synchronous
    operation [S], whatever the answers. *)
Inductive all_steps (P : forall X : Type, Call X -> Prop)
    (S : forall X : Type, SyncOp X -> Prop) {A : Type} : Async A -> Prop :=
| all_Ret (a : A) : all_steps P S (Ret a)
| all_Throw : all_steps P S Throw
| all_Diverge : all_steps P S Diverge
| all_Sync {X : Type} (op : SyncOp X) (k : X -> Async A) :
    S X op -> (forall x, all_steps P S (k x)) -> all_steps P S (Sync op k)
| all_Await {X : Type} (c : Call X) (k : option X -> Async A) :
    P X c -> (forall r, all_steps P S (k r)) -> all_steps P S (Await c k).

Definition any_sync (X : Type) (op : SyncOp X) : Prop := True.

(** A watch is registered with the options [o] only. *)
Definition watches_with (o : WatchOptions) (X : Type) (c : Call X) : Prop :=
  match c with
  | WatchPositionAsync _ o' => o' = o
  | _ => True
  end.

(** The call is not a backoff delay (during which timers may fire). *)
Definition no_delay (X : Type) (c : Call X) : Prop :=
  match c with
  | Delay _ => False
  | _ => True
  end.

(** The operation leaves [retryCount] at 0 when it is 0. *)
Definition keeps_retryCount (X : Type) (op : SyncOp X) : Prop :=
  match op with
  | WriteMod f => forall m, retryCount m = 0 -> retryCount (f m) = 0
  | _ => True
  end.

(** The guarded branch of the error handler is dead code: whatever code
    stands in the branch, every schedule is observed the same. *)
Definition guarded_branch_dead : Prop :=
  forall (branch1 branch2 : UserId -> Async bool) (acts : list Action)
         (w : World),
    answers (schedule (fun u => requestImmediateUpdateWith (branch1 u) u)
                      acts (mkSystem w [] []))
    = answers (schedule (fun u => requestImmediateUpdateWith (branch2 u) u)
                        acts (mkSystem w [] [])).

(** The operation leaves [pendingImmediateUpdate] as it is. *)
Definition keeps_pending (X : Type) (op : SyncOp X) : Prop :=
  match op with
  | WriteMod f =>
      forall m, pendingImmediateUpdate (f m) = pendingImmediateUpdate m
  | _ => True
  end.



Definition watch_event_with (o : WatchOptions) (e : Event) : Prop :=
  match e with
  | EvWatch _ o' _ => o' = o
  | _ => True
  end.


(** * The rest of the location service *)

(** ** The background tasks of LocationService.ts *)

Inductive Role : Type := Chips | Driver.

(** What [StorageService.getUser] answers: the stored user, with the members
    the service reads. *)
Record User : Type := mkUser {
  user_id : string;
  role : Role;
  isAvailable : option bool
}.

(** [BackgroundFetch.BackgroundFetchResult]. *)
Inductive BackgroundFetchResult : Type := NoData | NewData | Failed.

(** [user && user.id && user.role === 'driver']: the id to transmit for. *)
Definition driverId (user : option User) : option UserId :=
  match user with
  | Some u =>
      if truthy (user_id u)
      then match role u with Driver => Some (user_id u) | Chips => None end
      else None
  | None => None
  end.

(** [user?.isAvailable || false]. *)
Definition available (user : option User) : bool :=
  match user with
  | Some u => match isAvailable u with Some b => b | None => false end
  | None => false
  end.

(** The interval the background fetch keeps between two updates. *)
Definition appropriateInterval (user : option User) : Z :=
  if available user then AVAILABLE_DRIVER_INTERVAL
  else UNAVAILABLE_DRIVER_INTERVAL.

(** The handler of [LOCATION_TRACKING_TASK].  [error] says whether the task
    body carries an error, [data] is its list of locations, and [user] is
    what [StorageService.getUser] answers (it reads another storage item and
    catches its own errors). *)
Definition locationTrackingTask (error : bool)
    (data : option (list LocationObject)) (user : option User)
    : Async BackgroundFetchResult :=
  if error then Ret Failed else
  match data with
  | Some locations =>
      match hd_error locations with
      | Some location =>
          try_catch
            (saveLastKnownLocation location ;;
             match driverId user with
             | Some id => updateDriverLocation id (coords location)
             | None => Ret tt
             end ;;
             now <- sync DateNow ;;
             sync (WriteMod (set_lastUpdateTime now)) ;;
             Ret NewData)
            (Ret Failed)
      | None => Ret NoData
      end
  | None => Ret NoData
  end.

(** The [catch] block of the handler of [BACKGROUND_FETCH_TASK]; [user] is
    the answer of its own call of [StorageService.getUser]. *)
Definition backgroundFetchCatch (user : option User)
    : Async BackgroundFetchResult :=
  returned <-
    try_catch
      (m <- sync ReadMod ;;
       if pendingImmediateUpdate m then
         lastLocation <- getLastKnownLocation ;;
         match usable lastLocation with
         | Some c =>
             match driverId user with
             | Some id =>
                 updateDriverLocation id c ;;
                 sync (WriteMod (set_pendingImmediateUpdate false)) ;;
                 Ret true
             | None => Ret false
             end
         | None => Ret false
         end
       else Ret false)
      (Ret false) ;;
  if returned : bool then Ret NewData else Ret Failed.

(** The accuracy the background fetch asks for. *)
Definition fetchAccuracy (pending : bool) (user : option User) : Accuracy :=
  if pending then HIGH_ACCURACY
  else if available user then NORMAL_ACCURACY else LOW_ACCURACY.

(** The handler of [BACKGROUND_FETCH_TASK]; [user] and [userAgain] are the
    answers of [StorageService.getUser] in the [try] and in the [catch]
    block. *)
Definition backgroundFetchTask (user userAgain : option User)
    : Async BackgroundFetchResult :=
  try_catch
    (now <- sync DateNow ;;
     m <- sync ReadMod ;;
     (* Check if it's time for a new update *)
     if (now - lastUpdateTime m >=? appropriateInterval user)
        || pendingImmediateUpdate m
     then
       location <- await (GetCurrentPositionAsync
                            (fetchAccuracy (pendingImmediateUpdate m) user)) ;;
       saveLastKnownLocation location ;;
       match driverId user with
       | Some id =>
           updateDriverLocation id (coords location) ;;
           (* Reset flag after successful immediate update *)
           m <- sync ReadMod ;;
           (if pendingImmediateUpdate m
            then sync (WriteMod (set_pendingImmediateUpdate false))
            else Ret tt) ;;
           sync (WriteMod (set_lastUpdateTime now)) ;;
           Ret NewData
       | None => Ret NoData
       end
     else Ret NoData)
    (backgroundFetchCatch userAgain).

(** The handler of [IMMEDIATE_UPDATE_TASK]. *)
Definition immediateUpdateTask (user : option User)
    : Async BackgroundFetchResult :=
  try_catch
    (location <- await (GetCurrentPositionAsync HIGH_ACCURACY) ;;
     saveLastKnownLocation location ;;
     match driverId user with
     | Some id =>
         updateDriverLocation id (coords location) ;;
         Ret NewData
     | None => Ret NoData
     end)
    (Ret Failed).

(** Get last known location (for UI display). *)
Definition getLastLocation : Async (option StoredLocation) :=
  getLastKnownLocation.

(** A fresh sample was acquired, stored and transmitted. *)
Definition fresh_delivery (es : list Event) : bool :=
  match es with
  | EvAcquire _ (Some _) :: EvSetItem _ _ :: EvSend _ _ _ true :: _ => true
  | _ => false
  end.

Definition is_new_data (r : Outcome BackgroundFetchResult) : bool :=
  match r with
  | Returned NewData => true
  | _ => false
  end.


(** A CHIPS agent: a user who is no driver. *)
Definition an_agent : option User :=
  Some (mkUser "agent-1"%string Chips None).

(** The operation assigns no module variable. *)
Definition keeps_all (X : Type) (op : SyncOp X) : Prop :=
  match op with
  | WriteMod _ => False
  | _ => True
  end.

(** The last three calls acquired a sample at High accuracy, stored it and
    transmitted it. *)
Definition fresh_delivery_at_high (es : list Event) : bool :=
  match rev es with
  | EvSend _ _ _ true :: EvSetItem _ _ :: EvAcquire High (Some _) :: _ => true
  | _ => false
  end.

(** ** Postconditions of a run *)

Definition Post (A : Type) : Type := Outcome A -> World -> list Event -> Prop.

(** The run of [p] from [w] ends as [Q] says. *)
Definition satisfies {A : Type} (p : Async A) (w : World) (Q : Post A) : Prop :=
  Q (outcome (run p w)) (final (run p w)) (events (run p w)).

(** What is left to run after the first part of a [bind]. *)
Definition after_bind {A B : Type} (f : A -> Async B) (Q : Post B) : Post A :=
  fun o w es =>
    match o with
    | Returned a => satisfies (f a) w (fun o' w' es' => Q o' w' (es ++ es'))
    | Thrown => Q Thrown w es
    | Diverged => Q Diverged w es
    end.

(** What is left to run after the body of a [try_catch]. *)
Definition after_try {A : Type} (h : Async A) (Q : Post A) : Post A :=
  fun o w es =>
    match o with
    | Thrown => satisfies h w (fun o' w' es' => Q o' w' (es ++ es'))
    | _ => Q o w es
    end.

(** A platform call was rejected. *)
Definition rejected (e : Event) : bool :=
  match e with
  | EvOs None => true
  | EvRegister _ _ false => true
  | EvWatch _ _ false => true
  | _ => false
  end.

(** The call registers the background fetch task. *)
Definition registers_fetch (e : Event) : bool :=
  match e with
  | EvRegister BACKGROUND_FETCH_TASK _ _ => true
  | _ => false
  end.

(** The call does not register a task. *)
Definition no_register (X : Type) (c : Call X) : Prop :=
  match c with
  | RegisterTaskAsync _ _ => False
  | _ => True
  end.

(** The samples the position source answered, in order. *)
Fixpoint acquired (es : list Event) : list LocationObject :=
  match es with
  | [] => []
  | EvAcquire _ (Some l) :: rest => l :: acquired rest
  | _ :: rest => acquired rest
  end.

(** What a program that answers an optional sample has answered. *)
Definition answered (o : Outcome (option LocationObject))
    : list LocationObject :=
  match o with
  | Returned (Some l) => [l]
  | _ => []
  end.

(** * Permissions, settings and alerts

    The functions that only question the device and the user, in
    LocationService.ts and LocationErrorHandling.ts.  They run against a
    device that answers every question, or rejects it with an error. *)

(** [PermissionStatus] of expo. *)
Inductive PermissionStatus : Type := Granted | Denied | Undetermined.

Definition is_granted (s : PermissionStatus) : bool :=
  match s with Granted => true | _ => false end.

(** What was thrown: the [message] member of the error, if it has one. *)
Definition Error : Type := option string.

Inductive Result (X : Type) : Type :=
| Ok (x : X)
| Err (e : Error).

Arguments Ok {X} x.
Arguments Err {X} e.

(** The enumeration [LocationErrorType]. *)
Module LocationErrorType.
Inductive t : Type :=
| PERMISSION_DENIED
| LOCATION_DISABLED
| TIMEOUT
| NETWORK_ERROR
| LOW_ACCURACY
| UNAVAILABLE
| UNKNOWN.
End LocationErrorType.

Record LocationErrorInfo : Type := mkErrorInfo {
  error_type : LocationErrorType.t;
  error_message : string;
  canRecover : bool
}.

(** Questions to the device and to the user. *)
Inductive Ask : Type -> Type :=
| GetForegroundPermissionsAsync : Ask PermissionStatus
| RequestForegroundPermissionsAsync : Ask PermissionStatus
| GetBackgroundPermissionsAsync : Ask PermissionStatus
| RequestBackgroundPermissionsAsync : Ask PermissionStatus
| NotificationsRequestPermissionsAsync : Ask PermissionStatus
| HasServicesEnabledAsync : Ask bool
| LinkingOpenSettings : Ask unit
| StartActivityAsync : Ask unit        (* LOCATION_SOURCE_SETTINGS *)
| AlertAlert (title message : string) (buttons : list string) : Ask nat
| OnError (errorInfo : LocationErrorInfo) : Ask unit.   (* options.onError *)

Inductive Prog (A : Type) : Type :=
| PRet (a : A)
| PThrow (e : Error)
| PHang                        (* a promise that is never settled *)
| PAsk {X : Type} (q : Ask X) (k : Result X -> Prog A).

Arguments PRet {A} a.
Arguments PThrow {A} e.
Arguments PHang {A}.
Arguments PAsk {A X} q k.

Fixpoint pbind {A B : Type} (p : Prog A) (f : A -> Prog B) : Prog B :=
  match p with
  | PRet a => f a
  | PThrow e => PThrow e
  | PHang => PHang
  | PAsk q k => PAsk q (fun r => pbind (k r) f)
  end.

(** [try { body } catch (error) { handler }]. *)
Fixpoint ptry {A : Type} (body : Prog A) (handler : Error -> Prog A) : Prog A :=
  match body with
  | PRet a => PRet a
  | PThrow e => handler e
  | PHang => PHang
  | PAsk q k => PAsk q (fun r => ptry (k r) handler)
  end.

(** [await q]. *)
Definition ask {X : Type} (q : Ask X) : Prog X :=
  PAsk q (fun r => match r with Ok x => PRet x | Err e => PThrow e end).

(** A call whose promise is left alone, with its errors caught. *)
Definition fire {X : Type} (q : Ask X) : Prog unit :=
  PAsk q (fun _ => PRet tt).

Declare Scope prog_scope.
Delimit Scope prog_scope with prog.
Bind Scope prog_scope with Prog.
Notation "x <- c1 ;; c2" := (pbind c1 (fun x => c2))
  (at level 61, c1 at next level, right associativity) : prog_scope.
Notation "c1 ;; c2" := (pbind c1 (fun _ => c2))
  (at level 61, right associativity) : prog_scope.

(** The device: its answer to a question asked after [n] others. *)
Definition Device : Type := nat -> forall X : Type, Ask X -> Result X.

Inductive Asked : Type :=
| asked {X : Type} (q : Ask X).

Inductive Ending (A : Type) : Type :=
| Answered (a : A)
| Rejected (e : Error)
| Unsettled.

Arguments Answered {A} a.
Arguments Rejected {A} e.
Arguments Unsettled {A}.

(** The run of a program on a device that has answered [n] questions: how it
    ends and what it asked. *)
Fixpoint ask_all {A : Type} (p : Prog A) (d : Device) (n : nat)
    : Ending A * list Asked :=
  match p with
  | PRet a => (Answered a, [])
  | PThrow e => (Rejected e, [])
  | PHang => (Unsettled, [])
  | PAsk q k =>
      let '(o, qs) := ask_all (k (d n _ q)) d (S n) in
      (o, asked q :: qs)
  end.

(** ** LocationErrorHandling.ts *)

(** [s.includes(sub)]. *)
Fixpoint includes (s sub : string) : bool :=
  String.prefix sub s
  || match s with
     | EmptyString => false
     | String _ s' => includes s' sub
     end.

(** [error.message && error.message.includes(sub)]. *)
Definition mentions (error : Error) (sub : string) : bool :=
  match error with
  | Some message => truthy message && includes message sub
  | None => false
  end.

(** Analyzes an error to determine its type and recovery options. *)
Definition analyzeLocationError (error : Error) : LocationErrorInfo :=
  if mentions error "permission" then
    mkErrorInfo LocationErrorType.PERMISSION_DENIED "Location permission was denied" true
  else if mentions error "disabled"
          || mentions error "Location services are not enabled" then
    mkErrorInfo LocationErrorType.LOCATION_DISABLED "Location services are disabled" true
  else if mentions error "timeout" then
    mkErrorInfo LocationErrorType.TIMEOUT "Location request timed out" true
  else if mentions error "network" || mentions error "connection" then
    mkErrorInfo LocationErrorType.NETWORK_ERROR "Network error while getting location" false
  else if mentions error "accuracy" then
    mkErrorInfo LocationErrorType.LOW_ACCURACY "Location accuracy is too low" true
  else if mentions error "unavailable" then
    mkErrorInfo LocationErrorType.UNAVAILABLE "Location provider is unavailable" false
  else
    mkErrorInfo LocationErrorType.UNKNOWN
      (match error with
       | Some message =>
           if truthy message then message
           else "Unknown location error occurred"
       | None => "Unknown location error occurred"
       end)
      false.

(** Opens device location settings. *)
Definition openLocationSettings (os : PlatformOS) : Prog unit :=
  ptry
    (match os with
     | Ios => ask LinkingOpenSettings
     | Android => ask StartActivityAsync
     end)
    (fun _ =>
       (* Fallback to general settings if specific location settings fail *)
       fire LinkingOpenSettings).

(** A button of an alert: its text, whether pressing it opens the settings
    first, and what the promise of the alert is resolved with. *)
Record Button : Type := mkButton {
  text : string;
  opens_settings : bool;
  resolves : bool
}.

Definition alertTitle (errorInfo : LocationErrorInfo) : string :=
  match error_type errorInfo with
  | LocationErrorType.PERMISSION_DENIED => "Location Permission Required"
  | LocationErrorType.LOCATION_DISABLED => "Location Services Disabled"
  | LocationErrorType.TIMEOUT => "Location Timeout"
  | _ => "Location Error"
  end.

Definition alertMessage (errorInfo : LocationErrorInfo) : string :=
  match error_type errorInfo with
  | LocationErrorType.PERMISSION_DENIED =>
      "To respond to emergency transport requests, UMMA-NA needs access to your location. Please grant location permissions in your device settings."
  | LocationErrorType.LOCATION_DISABLED =>
      "Location services are turned off on your device. Please enable them to respond to emergency requests."
  | LocationErrorType.TIMEOUT =>
      "Could not get your location in time. Would you like to try again?"
  | _ => error_message errorInfo
  end.

Definition alertButtons (errorInfo : LocationErrorInfo) : list Button :=
  match error_type errorInfo with
  | LocationErrorType.PERMISSION_DENIED | LocationErrorType.LOCATION_DISABLED =>
      [mkButton "Not Now" false false; mkButton "Open Settings" true true]
  | LocationErrorType.TIMEOUT =>
      [mkButton "Cancel" false false; mkButton "Try Again" false true]
  | _ =>
      mkButton "OK" false false
      :: (* Add retry option if recovery is possible *)
         (if canRecover errorInfo then [mkButton "Try Again" false true]
          else [])
  end.

(** Shows a location error alert with appropriate recovery options; the
    promise is settled by the handler of the button the user presses. *)
Definition showLocationErrorAlert (os : PlatformOS)
    (errorInfo : LocationErrorInfo) : Prog bool :=
  PAsk (AlertAlert (alertTitle errorInfo) (alertMessage errorInfo)
          (map text (alertButtons errorInfo)))
    (fun r =>
       match r with
       | Ok i =>
           match nth_error (alertButtons errorInfo) i with
           | Some b =>
               ((if opens_settings b then openLocationSettings os
                 else PRet tt) ;;
                PRet (resolves b))%prog
           | None => PHang
           end
       | Err _ => PHang
       end).

(** Handle location errors with appropriate UI feedback and recovery
    attempts; [onError] says whether the options carry the callback. *)
Definition handleLocationError (os : PlatformOS) (error : Error)
    (options : LocationErrorHandlingOptions) (onError : bool) : Prog bool :=
  let errorInfo := analyzeLocationError error in
  ((if onError then ask (OnError errorInfo)
    else PRet tt) ;;
   if showAlerts options then
     shouldRetry <- showLocationErrorAlert os errorInfo ;;
     PRet shouldRetry
   else PRet (canRecover errorInfo))%prog.

(** Checks location services status and handles any issues. *)
Definition verifyLocationServicesEnabled (os : PlatformOS)
    (options : LocationErrorHandlingOptions) : Prog bool :=
  ptry
    (enabled <- ask HasServicesEnabledAsync ;;
     if negb enabled then
       if showAlerts options then
         shouldOpen <- showLocationErrorAlert os
                         (mkErrorInfo LocationErrorType.LOCATION_DISABLED
                            "Location services are disabled" true) ;;
         if shouldOpen : bool then
           openLocationSettings os ;;
           (* Re-check after settings were opened *)
           ask HasServicesEnabledAsync
         else PRet false
       else PRet false
     else PRet true)%prog
    (fun _ => PRet false).

(** Checks and requests location permissions with error handling. *)
Definition requestLocationPermissionsWithErrorHandling (os : PlatformOS)
    (options : LocationErrorHandlingOptions) (onError : bool) : Prog bool :=
  ptry
    (servicesEnabled <- verifyLocationServicesEnabled os options ;;
     if negb servicesEnabled then PRet false else
     foregroundStatus <- ask RequestForegroundPermissionsAsync ;;
     if negb (is_granted foregroundStatus) then
       (if showAlerts options then
          shouldOpen <- showLocationErrorAlert os
                          (mkErrorInfo LocationErrorType.PERMISSION_DENIED
                             "Foreground location permission denied" true) ;;
          if shouldOpen : bool then openLocationSettings os else PRet tt
        else PRet tt) ;;
       PRet false
     else
       (match os with
        | Ios => ask RequestBackgroundPermissionsAsync ;; PRet tt
        | Android => PRet tt
        end) ;;
       PRet true)%prog
    (fun error =>
       (if showAlerts options
        then handleLocationError os error options onError ;; PRet false
        else PRet false)%prog).

(** ** The permission methods of LocationService.ts *)

(** Request all required permissions. *)
Definition requestPermissions (os : PlatformOS) : Prog bool :=
  ptry
    (foregroundStatus <- ask RequestForegroundPermissionsAsync ;;
     if negb (is_granted foregroundStatus) then PRet false else
     (match os with
      | Ios => ask RequestBackgroundPermissionsAsync ;; PRet tt
      | Android => PRet tt
      end) ;;
     ask NotificationsRequestPermissionsAsync ;;
     PRet (is_granted foregroundStatus))%prog
    (fun _ => PRet false).

(** Check if any location permission is granted. *)
Definition hasAnyLocationPermission (os : PlatformOS) : Prog bool :=
  ptry
    (foregroundStatus <- ask GetForegroundPermissionsAsync ;;
     match os with
     | Ios =>
         backgroundStatus <- ask GetBackgroundPermissionsAsync ;;
         PRet (is_granted foregroundStatus || is_granted backgroundStatus)
     | Android => PRet (is_granted foregroundStatus)
     end)%prog
    (fun _ => PRet false).

(** Get location permission status: foreground and background. *)
Definition getPermissionStatus (os : PlatformOS)
    : Prog (PermissionStatus * PermissionStatus) :=
  ptry
    (foregroundStatus <- ask GetForegroundPermissionsAsync ;;
     match os with
     | Ios =>
         backgroundStatus <- ask GetBackgroundPermissionsAsync ;;
         PRet (foregroundStatus, backgroundStatus)
     | Android =>
         (* On Android, if foreground is granted, we consider background
            available too *)
         PRet (foregroundStatus, foregroundStatus)
     end)%prog
    (fun _ => PRet (Undetermined, Undetermined)).

(** ** Observations on the questions *)

Definition is_alert (a : Asked) : bool :=
  match a with
  | asked (AlertAlert _ _ _) => true
  | _ => false
  end.

Definition opens_the_settings (a : Asked) : bool :=
  match a with
  | asked LinkingOpenSettings => true
  | asked StartActivityAsync => true
  | _ => false
  end.

(** The types for which an error is said to be recoverable. *)
Definition recoverable (t : LocationErrorType.t) : bool :=
  match t with
  | LocationErrorType.PERMISSION_DENIED | LocationErrorType.LOCATION_DISABLED | LocationErrorType.TIMEOUT | LocationErrorType.LOW_ACCURACY => true
  | LocationErrorType.NETWORK_ERROR | LocationErrorType.UNAVAILABLE | LocationErrorType.UNKNOWN => false
  end.

(** A device whose permissions do not change while it is questioned. *)
Definition steady (d : Device) : Prop :=
  forall (n m : nat),
    d n _ GetForegroundPermissionsAsync = d m _ GetForegroundPermissionsAsync /\
    d n _ GetBackgroundPermissionsAsync = d m _ GetBackgroundPermissionsAsync.

(** A device that grants everything, with a user who presses the second
    button of every alert. *)
Definition willing : Device :=
  fun _ X q =>
    match q in Ask X return Result X with
    | GetForegroundPermissionsAsync => Ok Granted
    | RequestForegroundPermissionsAsync => Ok Granted
    | GetBackgroundPermissionsAsync => Ok Granted
    | RequestBackgroundPermissionsAsync => Ok Granted
    | NotificationsRequestPermissionsAsync => Ok Granted
    | HasServicesEnabledAsync => Ok true
    | LinkingOpenSettings => Ok tt
    | StartActivityAsync => Ok tt
    | AlertAlert _ _ _ => Ok 1%nat
    | OnError _ => Ok tt
    end.

(** A device with its location services off, and a user who presses the
    second button of every alert. *)
Definition services_off : Device :=
  fun _ X q =>
    match q in Ask X return Result X with
    | HasServicesEnabledAsync => Ok false
    | other => willing 0%nat _ other
    end.

(** A device whose location services are on and which rejects every other
    question, the error callback included. *)
Definition unwilling : Device :=
  fun _ X q =>
    match q in Ask X return Result X with
    | HasServicesEnabledAsync => Ok true
    | _ => Err None
    end.

Definition count_if {A : Type} (f : A -> bool) (l : list A) : nat :=
  length (filter f l).

(** ** DriverHome.tsx: the last update as the driver sees it *)

(** The text on the screen, with the number and the plural mark of the
    template strings apart. *)
Inductive LastUpdateText : Type :=
| Never
| JustNow
| MinutesAgo (minutes : Z) (plural : bool)
| HoursAgo (hours : Z) (plural : bool)
| LocaleString (timestamp : Z).

(** Format last update time in a human-readable format; [now] is
    [Date.now()]. *)
Definition formatLastUpdateTime (now timestamp : Z) : LastUpdateText :=
  let diff := now - timestamp in
  (* If less than a minute *)
  if diff <? 60 * 1000 then JustNow
  (* If less than an hour *)
  else if diff <? 60 * 60 * 1000 then
    let minutes := diff / (60 * 1000) in
    MinutesAgo minutes (negb (minutes =? 1))
  (* If less than a day *)
  else if diff <? 24 * 60 * 60 * 1000 then
    let hours := diff / (60 * 60 * 1000) in
    HoursAgo hours (negb (hours =? 1))
  (* Otherwise show date *)
  else LocaleString timestamp.

(** [lastUpdateTime > 0 ? formatLastUpdateTime(lastUpdateTime) : 'Never']
    in [checkLocationServiceStatus]. *)
Definition formattedTime (now lastUpdateTime : Z) : LastUpdateText :=
  if lastUpdateTime >? 0 then formatLastUpdateTime now lastUpdateTime
  else Never.
(** * Proofs *)

(** ** Running composed programs *)

Lemma run_bind {A B : Type} (p : Async A) (f : A -> Async B) (w : World) :
  run (bind p f) w =
  match run p w with
  | (Returned a, w', es) =>
      let '(o, w'', es') := run (f a) w' in (o, w'', es ++ es')
  | (Thrown, w', es) => (Thrown, w', es)
  | (Diverged, w', es) => (Diverged, w', es)
  end.
Proof.
  revert w. induction p as [a| | |X op k IH|X c k IH]; intros w; cbn.
  - destruct (run (f a) w) as [[o w''] es']. reflexivity.
  - reflexivity.
  - reflexivity.
  - destruct (step_sync op w) as [x w']. apply IH.
  - destruct (perform c w) as [[r w'] e]. rewrite IH.
    destruct (run (k r) w') as [[[a| |] w''] es]; try reflexivity.
    destruct (run (f a) w'') as [[o w3] es']. reflexivity.
Qed.

Lemma run_try_catch {A : Type} (p h : Async A) (w : World) :
  run (try_catch p h) w =
  match run p w with
  | (Thrown, w', es) =>
      let '(o, w'', es') := run h w' in (o, w'', es ++ es')
  | r => r
  end.
Proof.
  revert w. induction p as [a| | |X op k IH|X c k IH]; intros w; cbn.
  - reflexivity.
  - destruct (run h w) as [[o w''] es']. reflexivity.
  - reflexivity.
  - destruct (step_sync op w) as [x w']. apply IH.
  - destruct (perform c w) as [[r w'] e]. rewrite IH.
    destruct (run (k r) w') as [[[a| |] w''] es]; try reflexivity.
    destruct (run h w'') as [[o w3] es']. reflexivity.
Qed.



(** ** Properties of every step a program can make *)

Section AllSteps.
Variable P : forall X : Type, Call X -> Prop.
Variable S : forall X : Type, SyncOp X -> Prop.

Lemma all_steps_bind {A B : Type} (p : Async A) (f : A -> Async B) :
  all_steps P S p -> (forall a, all_steps P S (f a)) ->
  all_steps P S (bind p f).
Proof.
  intros Hp Hf. induction Hp; cbn; try constructor; auto.
Qed.

Lemma all_steps_try_catch {A : Type} (p h : Async A) :
  all_steps P S p -> all_steps P S h -> all_steps P S (try_catch p h).
Proof.
  intros Hp Hh. induction Hp; cbn; try constructor; auto.
Qed.

Lemma all_steps_await {X : Type} (c : Call X) :
  P X c -> all_steps P S (await c).
Proof.
  intros Hc. unfold await. constructor; [exact Hc|].
  intros [x|]; constructor.
Qed.

Lemma all_steps_sync {X : Type} (op : SyncOp X) :
  S X op -> all_steps P S (sync op).
Proof. intros Hop. unfold sync. constructor; [exact Hop|]. constructor. Qed.

(** Every event of a run is one of a call the program can make. *)
Lemma all_steps_run (Q : Event -> Prop) {A : Type} (p : Async A) :
  (forall (X : Type) (c : Call X) (w : World),
      P X c -> Q (snd (perform c w))) ->
  all_steps P S p -> forall w, Forall Q (events (run p w)).
Proof.
  intros sound.
  induction 1 as [a| | |X op k _ _ IH|X c k Hc _ IH]; intros w; cbn;
    try constructor.
  - destruct (step_sync op w) as [x w']. apply IH.
  - specialize (sound X c w Hc).
    destruct (perform c w) as [[r w'] e].
    specialize (IH r w').
    destruct (run (k r) w') as [[o w''] es].
    constructor; assumption.
Qed.

(** What every step preserves holds when the run is over. *)
Lemma all_steps_invariant (I : World -> Prop) {A : Type} (p : Async A) :
  (forall (X : Type) (c : Call X) (w : World),
      P X c -> I w -> I (snd (fst (perform c w)))) ->
  (forall (X : Type) (op : SyncOp X) (w : World),
      S X op -> I w -> I (snd (step_sync op w))) ->
  all_steps P S p -> forall w, I w -> I (final (run p w)).
Proof.
  intros calls syncs.
  induction 1 as [a| | |X op k Hop _ IH|X c k Hc _ IH]; intros w Hw; cbn;
    try exact Hw.
  - specialize (syncs X op w Hop Hw).
    destruct (step_sync op w) as [x w']. apply IH. exact syncs.
  - specialize (calls X c w Hc Hw).
    destruct (perform c w) as [[r w'] e].
    specialize (IH r w' calls).
    destruct (run (k r) w') as [[o w''] es]. exact IH.
Qed.
End AllSteps.

Create HintDb steps.
#[export] Hint Resolve all_steps_await all_steps_sync all_Ret all_Throw
  all_Diverge : steps.
#[export] Hint Unfold any_sync : steps.

(** Walks the binds, handlers and branches of a program; the calls and the
    synchronous operations are left to [auto]. *)
Ltac all_steps_tac :=
  repeat first
    [ apply all_steps_bind
    | apply all_steps_try_catch
    | intro
    | match goal with
      | |- all_steps _ _ (if ?b then _ else _) => destruct b
      | |- all_steps _ _ (match ?x with _ => _ end) => destruct x
      end ];
  auto with steps.

(** Case analysis on the next answer of the environment. *)
Ltac oracle :=
  match goal with
  | |- context [gps ?e ?n ?a] => destruct (gps e n a) eqn:?
  | |- context [disk ?e ?n] => destruct (disk e n) eqn:?
  | |- context [net ?e ?n] => destruct (net e n) eqn:?
  | |- context [os ?e ?n] => destruct (os e n) as [[|]|] eqn:?
  end.

Ltac oracles := cbn; repeat (oracle; cbn).

(** ** LastKnownLocation and acquisition timestamps (C1) *)

Lemma run_saveLastKnownLocation (location : LocationObject) (w : World) :
  run (saveLastKnownLocation location) w =
  let v := mkStored (Some (coords location)) (timestamp location) in
  let ok := disk (env w) (n_disk w) in
  (Returned tt, tick_disk (if ok then with_item (Some v) w else w),
   [EvSetItem v ok]).
Proof.
  unfold saveLastKnownLocation; cbn.
  destruct (disk (env w) (n_disk w)); reflexivity.
Qed.

(** C1, counterexample: with a sample of timestamp 10 stored, saving a sample
    of timestamp 5 replaces it. *)
Lemma saveLastKnownLocation_not_monotone : ~ timestamp_monotone.
Proof.
  intros H.
  specialize (H (boot env_ok Android (Some (cached 10))) (sample 5)
                (cached 10) (cached 5) eq_refl eq_refl).
  cbn in H. lia.
Qed.

(** C1, amended: [saveLastKnownLocation] never reads the stored timestamp.
    It always returns; after a storage write that succeeded the item is the
    new sample, whatever the timestamps, and after one that failed the item is
    unchanged.  The foreground watch callback stores its sample in just this
    way. *)
Theorem saveLastKnownLocation_last_writer_wins :
  forall (w : World) (location : LocationObject),
    let v := mkStored (Some (coords location)) (timestamp location) in
    let r := run (saveLastKnownLocation location) w in
    outcome r = Returned tt /\
    item (final r) = (if disk (env w) (n_disk w) then Some v else item w) /\
    forall userId,
      item (final (run (watchCallback userId location) w)) = item (final r).
Proof.
  intros w location v r. subst r.
  rewrite run_saveLastKnownLocation. cbn.
  split; [reflexivity|]. split.
  - destruct (disk (env w) (n_disk w)); reflexivity.
  - intros userId. unfold watchCallback, saveLastKnownLocation. cbn.
    destruct (disk (env w) (n_disk w)); cbn;
      destruct (net (env w) (n_net w)); reflexivity.
Qed.

(** ** The time of the last successful update (C10) *)




(** ** Tracking parameters from the operating mode (C8) *)

Lemma watches_with_sound (o : WatchOptions) (X : Type) (c : Call X) (w : World) :
  watches_with o X c -> watch_event_with o (snd (perform c w)).
Proof.
  destruct c; cbn; intros H; try exact I;
    destruct (os (env w) (n_os w)); cbn; auto.
Qed.

Lemma stopTracking_watches (o : WatchOptions) :
  all_steps (watches_with o) any_sync stopTracking.
Proof.
  unfold stopTracking.
  all_steps_tac; first [apply all_steps_await | apply all_steps_sync]; exact I.
Qed.

Lemma startForegroundTracking_watches (userId : UserId) (isAvailable : bool) :
  all_steps (watches_with (foregroundOptions isAvailable)) any_sync
            (startForegroundTracking userId isAvailable).
Proof.
  unfold startForegroundTracking.
  all_steps_tac; try apply stopTracking_watches;
    first [apply all_steps_await | apply all_steps_sync];
    first [exact I | reflexivity].
Qed.

(** C8: the options of the foreground watch are a function of the
    availability alone.  An available driver is watched at Balanced accuracy
    every 2 minutes or 50 meters, an unavailable one at Low accuracy every
    10 minutes or 250 meters; the background options differ in the interval
    only (5 and 15 minutes).  Whatever the state of the world,
    [startForegroundTracking] registers its watch with these options. *)
Theorem tracking_parameters_by_mode :
  foregroundOptions true = mkWatch Balanced 50 120000 /\
  foregroundOptions false = mkWatch Low 250 600000 /\
  backgroundOptions true = mkWatch Balanced 50 300000 /\
  backgroundOptions false = mkWatch Low 250 900000 /\
  rank (w_accuracy (foregroundOptions false))
    < rank (w_accuracy (foregroundOptions true)) /\
  w_timeInterval (foregroundOptions true)
    < w_timeInterval (foregroundOptions false) /\
  w_distanceInterval (foregroundOptions true)
    < w_distanceInterval (foregroundOptions false) /\
  w_timeInterval (backgroundOptions true)
    < w_timeInterval (backgroundOptions false) /\
  forall (w : World) (userId : UserId) (isAvailable : bool),
    Forall (watch_event_with (foregroundOptions isAvailable))
           (events (run (startForegroundTracking userId isAvailable) w)).
Proof.
  repeat (split; [reflexivity|]).
  intros w userId isAvailable.
  apply all_steps_run
    with (P := watches_with (foregroundOptions isAvailable)) (S := any_sync).
  - intros X c w'. apply watches_with_sound.
  - apply startForegroundTracking_watches.
Qed.

(** The watch is registered indeed: started for an available driver and
    started again for an unavailable one, the service watches with the
    options of the mode, and the cached sample is still there. *)
Example mode_change_reconfigures_watch :
  let w1 := final (run (startForegroundTracking driver true)
                       (boot env_ok Android (Some (cached 7)))) in
  let w2 := final (run (startForegroundTracking driver false) w1) in
  watch w1 = Some (driver, mkWatch Balanced 50 120000) /\
  watch w2 = Some (driver, mkWatch Low 250 600000) /\
  isTrackingActive (vars w2) = true /\
  item w2 = Some (cached 7).
Proof. repeat split. Qed.

(** ** The ladder of getLocationWithFallback (C6, C7) *)

(** With the position source failing at every tier, the invocation reads the
    cached sample and transmits it; nothing is written. *)
Lemma getLocationWithFallback_exhausted (w : World) (userId : UserId) :
  (forall n a, gps (env w) n a = None) ->
  let r := run (getLocationWithFallback userId) w in
  tiers (events r) = [High; Balanced; Low] /\
  writes (events r) = [] /\
  item (final r) = item w /\
  outcome r =
    match (if disk (env w) (n_disk w) then usable (item w) else None) with
    | Some _ => if net (env w) (n_net w) then Returned true else Thrown
    | None => Returned false
    end.
Proof.
  intros Hgps r. subst r.
  unfold getLocationWithFallback, tryAccuracy, getLastKnownLocation. cbn.
  repeat (rewrite Hgps; cbn).
  destruct (disk (env w) (n_disk w)); cbn.
  - destruct (item w) as [[[c|] t]|] eqn:Hitem; cbn;
      try destruct (net (env w) (n_net w)); cbn; auto.
  - auto.
Qed.

(** C6, the failing input: every acquisition fails, a sample of timestamp 7
    is cached and the transmitter is down.  The invocation neither returns
    false nor reports partial success: the rejection of the fallback
    transmission leaves the function. *)
Theorem getLocationWithFallback_throws :
  let r := run (getLocationWithFallback driver)
               (boot env_offline Android (Some (cached 7))) in
  outcome r = Thrown /\
  events r = [EvAcquire High None; EvAcquire Balanced None; EvAcquire Low None;
              EvGetItem (Some (Some (cached 7)));
              EvSend driver 9 7 false] /\
  item (final r) = Some (cached 7).
Proof. repeat split. Qed.




(** ** The retry loop and the accuracy ladder (C4, C5) *)


















(** ** One invocation alone in the event loop *)

Lemma schedule_cons (request : UserId -> Async bool) (a : Action)
    (acts : list Action) (s : System) :
  schedule request (a :: acts) s = schedule request acts (act request a s).
Proof. reflexivity. Qed.

(** A lone invocation resumed until it is over does what [run] says. *)
Lemma resume_alone (request : UserId -> Async bool) (p : Async bool) :
  forall (w : World) (lg : list (nat * Event)),
  exists n : nat,
    let s := schedule request (repeat (Resume 0) n)
                      (mkSystem (snd (settle p w)) [fst (settle p w)] lg) in
    world s = final (run p w) /\
    log s = lg ++ map (pair 0%nat) (events (run p w)) /\
    answers s = [Some (outcome (run p w))].
Proof.
  induction p as [a| | |X op k IH|X c k IH]; intros w lg.
  - exists 0%nat. cbn. rewrite app_nil_r. auto.
  - exists 0%nat. cbn. rewrite app_nil_r. auto.
  - exists 0%nat. cbn. rewrite app_nil_r. auto.
  - cbn [settle run]. destruct (step_sync op w) as [x w']. apply IH.
  - cbn [settle run fst snd].
    destruct (perform c w) as [[r w1] e] eqn:Hperform.
    destruct (IH r w1 (lg ++ [(0%nat, e)])) as [n Hn].
    exists (S n). cbn [repeat]. rewrite schedule_cons.
    cbn [act pool world log nth_error]. rewrite Hperform.
    destruct (settle (k r) w1) as [p' w'] eqn:Hsettle.
    cbn [replace_nth fst snd] in *.
    destruct (run (k r) w1) as [[o w''] es].
    unfold final, events, outcome in *. cbn [fst snd map] in *.
    destruct Hn as (H1 & H2 & H3). rewrite H1, H2, H3, <- app_assoc.
    auto.
Qed.

Lemma request_alone (request : UserId -> Async bool) (userId : UserId)
    (w : World) :
  exists n : nat,
    let s := schedule request (Request userId :: repeat (Resume 0) n)
                      (mkSystem w [] []) in
    world s = final (run (request userId) w) /\
    map snd (log s) = events (run (request userId) w) /\
    answers s = [Some (outcome (run (request userId) w))].
Proof.
  destruct (resume_alone request (request userId) w []) as [n Hn].
  exists n. rewrite schedule_cons. cbn [act world pool log app].
  destruct (settle (request userId) w) as [p w'].
  cbn [fst snd] in Hn. cbv zeta in *.
  destruct Hn as (H1 & H2 & H3). rewrite H1, H2, H3. cbn [app].
  rewrite map_map. cbn. rewrite map_id. auto.
Qed.

(** ** Immediate updates (C2, C3, C9) *)

Lemma run_immediateUpdateTry (userId : UserId) (w : World) :
  run (immediateUpdateTry userId) w =
  run (immediateUpdateAttempts userId)
      (with_vars (set_retryCount 0 (set_pendingImmediateUpdate true (vars w))) w).
Proof. reflexivity. Qed.


(** The same with the two calls overlapping: both are suspended on an
    acquisition of their own. *)
Lemma overlapping_calls_both_acquire :
  map awaiting
      (pool (schedule requestImmediateUpdate [Request driver; Request driver]
                      (mkSystem (boot env_ok Android None) [] [])))
  = [Some High; Some High].
Proof. reflexivity. Qed.


(** C3, the failing input: a call in the background arms the deadline (which
    would clear the flag after 60 seconds); [stopTracking] then cancels the
    timer and leaves the flag set, and no amount of time clears it. *)
Theorem stopTracking_leaves_pending_stuck :
  let w1 := final (run (requestImmediateUpdate driver) world_background) in
  let w2 := final (run stopTracking w1) in
  pendingImmediateUpdate (vars w1) = true /\
  map (fun t => (fst t, fst (snd t))) (timers w1) = [(1%nat, 60000)] /\
  pendingImmediateUpdate (vars (elapse 60000 w1)) = false /\
  pendingImmediateUpdate (vars w2) = true /\
  timers w2 = [] /\
  forall dt : Z, pendingImmediateUpdate (vars (elapse dt w2)) = true.
Proof.
  repeat split.
Qed.

(** Apart from the delay, during which timers fire, no call touches the
    module variables. *)
Lemma perform_vars (X : Type) (c : Call X) (w : World) :
  no_delay X c -> vars (snd (fst (perform c w))) = vars w.
Proof.
  destruct c; cbn; intros Hc; try contradiction; try reflexivity;
    repeat oracle; reflexivity.
Qed.

Lemma perform_keeps_retryCount (X : Type) (c : Call X) (w : World) :
  no_delay X c ->
  retryCount (vars w) = 0 ->
  retryCount (vars (snd (fst (perform c w)))) = 0.
Proof. intros Hc Hw. rewrite perform_vars by exact Hc. exact Hw. Qed.

(** [stopTracking] never assigns the flag, in any world. *)
Lemma stopTracking_keeps_pending (w : World) :
  pendingImmediateUpdate (vars (final (run stopTracking w)))
  = pendingImmediateUpdate (vars w).
Proof.
  apply all_steps_invariant
    with (P := no_delay) (S := keeps_pending)
         (I := fun w' => pendingImmediateUpdate (vars w')
                         = pendingImmediateUpdate (vars w)).
  - intros X c w' Hc Hw'. rewrite perform_vars by exact Hc. exact Hw'.
  - intros X op w' Hop Hw'. destruct op; cbn in *; try exact Hw'.
    rewrite Hop. exact Hw'.
  - unfold stopTracking.
    all_steps_tac;
      first [ apply all_steps_await; exact I
            | apply all_steps_sync; cbn; auto ].
  - reflexivity.
Qed.

Lemma step_sync_keeps_retryCount (X : Type) (op : SyncOp X) (w : World) :
  keeps_retryCount X op ->
  retryCount (vars w) = 0 ->
  retryCount (vars (snd (step_sync op w))) = 0.
Proof.
  destruct op; cbn; intros Hop Hw; auto.
Qed.

Lemma immediateUpdateAttempts_steps (userId : UserId) :
  all_steps no_delay keeps_retryCount (immediateUpdateAttempts userId).
Proof.
  unfold immediateUpdateAttempts, saveLastKnownLocation, getLastKnownLocation,
    updateDriverLocation.
  all_steps_tac;
    first [ apply all_steps_await; exact I
          | apply all_steps_sync; cbn; auto ].
Qed.

(** When the [try] block throws, [retryCount] is the 0 it was set to. *)
Lemma immediateUpdateTry_retryCount (userId : UserId) (w : World) :
  retryCount (vars (final (run (immediateUpdateTry userId) w))) = 0.
Proof.
  rewrite run_immediateUpdateTry.
  apply all_steps_invariant
    with (P := no_delay) (S := keeps_retryCount)
         (I := fun w => retryCount (vars w) = 0).
  - apply perform_keeps_retryCount.
  - apply step_sync_keeps_retryCount.
  - apply immediateUpdateAttempts_steps.
  - reflexivity.
Qed.

(** With [retryCount] at 0 the handler does not enter its guarded branch. *)
Lemma immediateUpdateCatch_unguarded (branch : Async bool) (w : World) :
  retryCount (vars w) = 0 ->
  run (immediateUpdateCatch branch) w =
  (Returned false,
   with_vars (set_pendingImmediateUpdate false (set_retryCount 1 (vars w))) w,
   []).
Proof.
  intros H. unfold immediateUpdateCatch. cbn. rewrite H. cbn. rewrite H.
  reflexivity.
Qed.

(** C9, counterexample: four invocations overlap and the transmitter is
    down; the error handlers of the first three count [retryCount] up to 3,
    and the fourth enters the guarded branch, transmits the cached sample and
    answers true. *)
Lemma guarded_branch_reached_by_overlap : ~ guarded_branch_dead.
Proof.
  intros H.
  specialize (H fallbackAfterRetries (fun _ => Ret false) overlap world_overlap).
  vm_compute in H. discriminate.
Qed.

(** What the overlap does in the code as it is: the fourth invocation reads
    the cache and transmits a second time, from inside the guarded branch. *)
Lemma overlap_enters_guarded_branch :
  let s := schedule requestImmediateUpdate overlap
                    (mkSystem world_overlap [] []) in
  answers s = [Some (Returned false); Some (Returned false);
               Some (Returned false); Some (Returned true)] /\
  retryCount (vars (world s)) = 3 /\
  skipn 8 (log s) = [(3%nat, EvGetItem (Some (Some (cached 7))));
                     (3%nat, EvSend driver 9 7 true)].
Proof. repeat split. Qed.

(** C9, amended: in an invocation that runs from its call to its answer with
    no other invocation in between, the guarded branch is never entered:
    whatever code stands in the branch, the run is the same. *)
Theorem guarded_branch_unreachable_alone :
  forall (branch1 branch2 : Async bool) (userId : UserId) (w : World),
    run (requestImmediateUpdateWith branch1 userId) w
    = run (requestImmediateUpdateWith branch2 userId) w.
Proof.
  intros branch1 branch2 userId w.
  unfold requestImmediateUpdateWith. rewrite !run_try_catch.
  pose proof (immediateUpdateTry_retryCount userId w) as H.
  destruct (run (immediateUpdateTry userId) w) as [[[a| |] w'] es];
    try reflexivity.
  unfold final in H; cbn [fst snd] in H.
  rewrite !immediateUpdateCatch_unguarded by exact H. reflexivity.
Qed.

(** * The rest of the location service: proofs *)

(** Case analysis on whatever blocks the run of a program: an answer of the
    environment, a module variable, a stored item, an argument. *)
Ltac blocked :=
  match goal with
  | |- context [match ?x with _ => _ end] =>
      lazymatch x with
      | context [match _ with _ => _ end] => fail
      | _ => destruct x eqn:?
      end
  end.

Ltac paths :=
  cbn; unfold resolved; repeat (blocked; cbn; unfold resolved).

(** ** Postconditions, rule by rule *)

Lemma sat_bind {A B : Type} (p : Async A) (f : A -> Async B) (w : World)
    (Q : Post B) :
  satisfies p w (after_bind f Q) -> satisfies (bind p f) w Q.
Proof.
  unfold satisfies, after_bind, outcome, final, events. rewrite run_bind.
  destruct (run p w) as [[[a| |] w'] es]; cbn [fst snd]; auto.
  unfold satisfies, outcome, final, events.
  destruct (run (f a) w') as [[o w''] es']. cbn [fst snd]. auto.
Qed.

Lemma sat_try_catch {A : Type} (p h : Async A) (w : World) (Q : Post A) :
  satisfies p w (after_try h Q) -> satisfies (try_catch p h) w Q.
Proof.
  unfold satisfies, after_try, outcome, final, events. rewrite run_try_catch.
  destruct (run p w) as [[[a| |] w'] es]; cbn [fst snd]; auto.
  unfold satisfies, outcome, final, events.
  destruct (run h w') as [[o w''] es']. cbn [fst snd]. auto.
Qed.

Lemma sat_ret {A : Type} (a : A) (w : World) (Q : Post A) :
  Q (Returned a) w [] -> satisfies (Ret a) w Q.
Proof. auto. Qed.

Lemma sat_throw {A : Type} (w : World) (Q : Post A) :
  Q Thrown w [] -> satisfies Throw w Q.
Proof. auto. Qed.

Lemma sat_sync {X : Type} (op : SyncOp X) (w : World) (Q : Post X) :
  Q (Returned (fst (step_sync op w))) (snd (step_sync op w)) [] ->
  satisfies (sync op) w Q.
Proof.
  unfold satisfies, sync. cbn. destruct (step_sync op w) as [x w']. auto.
Qed.

Lemma sat_await {X : Type} (c : Call X) (w : World) (Q : Post X) :
  Q (match fst (fst (perform c w)) with
     | Some x => Returned x
     | None => Thrown
     end)
    (snd (fst (perform c w))) [snd (perform c w)] ->
  satisfies (await c) w Q.
Proof.
  unfold satisfies, await. cbn. destruct (perform c w) as [[[x|] w'] e]; auto.
Qed.

(** Projections of the worlds and module variables a run goes through. *)
Ltac world_simpl :=
  cbn [fst snd
       env platform vars item timers next_timer clock watch bg_updates
       registered n_gps n_net n_disk n_os
       with_vars with_item with_timers with_clock with_watch with_bg_updates
       with_registered tick_gps tick_net tick_disk tick_os
       locationSubscription isTracking lastUpdateTime pendingImmediateUpdate
       locationUpdateTimeout retryCount appState
       set_locationSubscription set_isTracking set_lastUpdateTime
       set_pendingImmediateUpdate set_locationUpdateTimeout set_retryCount
       set_appState].

Ltac sat_step :=
  lazymatch goal with
  | |- satisfies (bind _ _) _ _ => apply sat_bind
  | |- satisfies (try_catch _ _) _ _ => apply sat_try_catch
  | |- satisfies (Ret _) _ _ => apply sat_ret
  | |- satisfies Throw _ _ => apply sat_throw
  | |- satisfies (sync _) _ _ =>
      apply sat_sync; cbn [step_sync fst snd]; world_simpl
  | |- satisfies (await _) _ _ =>
      apply sat_await; cbn [perform fst snd]; unfold resolved; world_simpl
  | |- satisfies stopTracking _ _ => fail
  | |- satisfies (match _ with _ => _ end) _ _ => blocked
  | |- after_bind _ _ _ _ _ => cbv beta iota delta [after_bind]; world_simpl
  | |- after_try _ _ _ _ _ => cbv beta iota delta [after_try]; world_simpl
  | |- _ => first [ progress (cbv beta iota; world_simpl)
                  | blocked; cbv beta iota ]
  end.

Ltac sat := repeat sat_step.

(** ** The background tasks *)



(** X2: the background fetch always returns, and it answers NewData exactly
    when one of its transmissions succeeded. *)
Theorem backgroundFetchTask_result :
  forall (w : World) (user userAgain : option User),
    let r := run (backgroundFetchTask user userAgain) w in
    (exists res, outcome r = Returned res) /\
    is_new_data (outcome r) = existsb (fun ok => ok) (sends (events r)).
Proof.
  intros w user userAgain r; subst r.
  unfold backgroundFetchTask, backgroundFetchCatch, saveLastKnownLocation,
    getLastKnownLocation, updateDriverLocation, usable.
  paths; split; try reflexivity; eexists; reflexivity.
Qed.

(** X3: the background fetch never sets the pending flag and clears it
    exactly when it answers NewData; it records the time read at its start as
    the last update time exactly when it transmitted a fresh sample, so a
    cached sample sent from its error handler clears the flag and leaves the
    last update time alone. *)
Theorem backgroundFetchTask_state :
  forall (w : World) (user userAgain : option User),
    let r := run (backgroundFetchTask user userAgain) w in
    pendingImmediateUpdate (vars (final r)) =
      pendingImmediateUpdate (vars w) && negb (is_new_data (outcome r)) /\
    lastUpdateTime (vars (final r)) =
      (if fresh_delivery (events r) then clock w
       else lastUpdateTime (vars w)) /\
    retryCount (vars (final r)) = retryCount (vars w).
Proof.
  intros w user userAgain r; subst r.
  unfold backgroundFetchTask, backgroundFetchCatch, saveLastKnownLocation,
    getLastKnownLocation, updateDriverLocation, usable.
  paths; repeat split;
    repeat match goal with
           | H : pendingImmediateUpdate _ = _ |- _ => cbn in H; rewrite H
           end; try reflexivity; try discriminate;
    try (symmetry; apply andb_true_r).
Qed.

(** X4: the location task uses the first location of its batch only.  It
    transmits for a driver only, yet whenever no transmission failed, also
    when none was made because the user is missing or is no driver, it
    answers NewData and records the current time as the last update time; a
    failed transmission gives Failed and leaves the time alone.  A task body
    with an error gives Failed, one without a location NoData, both without
    any call. *)
Theorem locationTrackingTask_result :
  forall (w : World) (user : option User),
    (forall data, run (locationTrackingTask true data user) w
                  = (Returned Failed, w, [])) /\
    run (locationTrackingTask false None user) w = (Returned NoData, w, []) /\
    run (locationTrackingTask false (Some []) user) w
      = (Returned NoData, w, []) /\
    forall (location : LocationObject) (more : list LocationObject),
      let r := run (locationTrackingTask false (Some (location :: more)) user) w in
      let sent := match driverId user with
                  | Some _ => [net (env w) (n_net w)]
                  | None => []
                  end in
      let failed := existsb negb sent in
      writes (events r)
        = [mkStored (Some (coords location)) (timestamp location)] /\
      sends (events r) = sent /\
      outcome r = Returned (if failed then Failed else NewData) /\
      lastUpdateTime (vars (final r))
        = (if failed then lastUpdateTime (vars w) else clock w).
Proof.
  intros w user. repeat split.
  all: unfold locationTrackingTask, saveLastKnownLocation, updateDriverLocation.
  all: paths; reflexivity.
Qed.

(** No step of the handler of [IMMEDIATE_UPDATE_TASK] assigns a module
    variable. *)
Lemma immediateUpdateTask_steps (user : option User) :
  all_steps no_delay keeps_all (immediateUpdateTask user).
Proof.
  unfold immediateUpdateTask, saveLastKnownLocation, updateDriverLocation.
  all_steps_tac; apply all_steps_await; exact I.
Qed.

(** X5: the immediate update task always returns, answers NewData exactly
    when its transmission succeeded, and never assigns a module variable: even
    a fresh sample it transmitted neither clears the pending flag nor counts
    as the last update. *)
Theorem immediateUpdateTask_keeps_vars :
  forall (w : World) (user : option User),
    let r := run (immediateUpdateTask user) w in
    vars (final r) = vars w /\
    (exists res, outcome r = Returned res) /\
    is_new_data (outcome r) = existsb (fun ok => ok) (sends (events r)) /\
    tiers (events r) = [High].
Proof.
  intros w user r; subst r. split.
  - apply all_steps_invariant
      with (P := no_delay) (S := keeps_all) (I := fun w' => vars w' = vars w).
    + intros X c w' Hc Hw'. rewrite perform_vars by exact Hc. exact Hw'.
    + intros X op w' Hop Hw'. destruct op; cbn in *;
        first [exact Hw' | contradiction].
    + apply immediateUpdateTask_steps.
    + reflexivity.
  - unfold immediateUpdateTask, saveLastKnownLocation, updateDriverLocation.
    paths; repeat split; try reflexivity; eexists; reflexivity.
Qed.

(** ** What an immediate update leaves behind *)

(** A timer that is due and last in the queue has the last word. *)
Lemma fire_due_last (now : Z) (id : TimerId) (due : Z) (cb : Mod -> Mod) :
  due <= now ->
  forall (ts : list (TimerId * (Z * (Mod -> Mod)))) (m : Mod),
    fst (fire_due now (ts ++ [(id, (due, cb))]) m)
    = cb (fst (fire_due now ts m)).
Proof.
  intros Hdue. induction ts as [|[i [d c]] ts IH]; intros m; cbn.
  - apply Z.leb_le in Hdue. rewrite Hdue. reflexivity.
  - destruct (d <=? now).
    + apply IH.
    + specialize (IH m).
      destruct (fire_due now (ts ++ [(id, (due, cb))]) m) as [m1 r1].
      destruct (fire_due now ts m) as [m2 r2]. exact IH.
Qed.

(** The ways [requestImmediateUpdate] ends. *)
Lemma requestImmediateUpdate_run :
  forall (w : World) (userId : UserId),
    let r := run (requestImmediateUpdate userId) w in
    match outcome r with
    | Returned true =>
        if pendingImmediateUpdate (vars (final r))
        then locationUpdateTimeout (vars (final r)) = Some (next_timer w) /\
             clock (final r) = clock w /\
             exists ts,
               timers (final r)
               = ts ++ [(next_timer w,
                         (clock w + 60000, set_pendingImmediateUpdate false))]
        else fresh_delivery_at_high (events r) = true
    | Returned false =>
        pendingImmediateUpdate (vars (final r)) = false /\
        retryCount (vars (final r)) = 1 /\
        last (sends (events r)) true = false
    | _ => False
    end.
Proof.
  intros w userId r. subst r.
  change (satisfies (requestImmediateUpdate userId) w
            (fun o wf es =>
               match o with
               | Returned true =>
                   if pendingImmediateUpdate (vars wf)
                   then locationUpdateTimeout (vars wf) = Some (next_timer w) /\
                        clock wf = clock w /\
                        exists ts,
                          timers wf
                          = ts ++ [(next_timer w,
                                    (clock w + 60000,
                                     set_pendingImmediateUpdate false))]
                   else fresh_delivery_at_high es = true
               | Returned false =>
                   pendingImmediateUpdate (vars wf) = false /\
                   retryCount (vars wf) = 1 /\
                   last (sends es) true = false
               | _ => False
               end)).
  unfold requestImmediateUpdate, requestImmediateUpdateWith, immediateUpdateTry,
    immediateUpdateAttempts, immediateUpdateCatch, fallbackAfterRetries,
    saveLastKnownLocation, getLastKnownLocation, updateDriverLocation, usable.
  sat.
  all: cbn [app].
  all: try match goal with
           | H : (0 >=? MAX_RETRIES) = true |- _ => discriminate H
           end.
  all: try reflexivity.
  all: try (repeat split; reflexivity).
  all: split; [reflexivity|]; split; [reflexivity|]; eexists; reflexivity.
Qed.

(** X6: [requestImmediateUpdate] never throws, and it ends in one of three
    ways.  It answers false with the flag cleared and [retryCount] at 1, its
    last transmission having failed; or it answers true with the flag
    cleared, its last three calls having acquired a sample at High accuracy,
    stored it and transmitted it; or it answers true with the flag set, the
    handle of a new timer stored and that timer last in the queue, due 60
    seconds from now, with the clearing of the flag as its callback. *)
Theorem requestImmediateUpdate_cases :
  forall (w : World) (userId : UserId),
    let r := run (requestImmediateUpdate userId) w in
    match outcome r with
    | Returned true =>
        if pendingImmediateUpdate (vars (final r))
        then locationUpdateTimeout (vars (final r)) = Some (next_timer w) /\
             clock (final r) = clock w /\
             exists ts,
               timers (final r)
               = ts ++ [(next_timer w,
                         (clock w + 60000, set_pendingImmediateUpdate false))]
        else fresh_delivery_at_high (events r) = true
    | Returned false =>
        pendingImmediateUpdate (vars (final r)) = false /\
        retryCount (vars (final r)) = 1 /\
        last (sends (events r)) true = false
    | _ => False
    end.
Proof. exact requestImmediateUpdate_run. Qed.

(** X7: when [requestImmediateUpdate] leaves the flag set, the flag is
    clear once 60 seconds or more have passed, if nothing else has run in
    between. *)
Theorem pending_cleared_at_deadline :
  forall (w : World) (userId : UserId) (dt : Z),
    let w' := final (run (requestImmediateUpdate userId) w) in
    pendingImmediateUpdate (vars w') = true ->
    60000 <= dt ->
    pendingImmediateUpdate (vars (elapse dt w')) = false.
Proof.
  intros w userId dt w' Hpending Hdt. subst w'.
  pose proof (requestImmediateUpdate_run w userId) as H. cbv zeta in H.
  destruct (outcome (run (requestImmediateUpdate userId) w)) as [[|]| |];
    try contradiction.
  - rewrite Hpending in H. destruct H as (_ & Hclock & ts & Htimers).
    unfold elapse. cbn [vars with_vars]. rewrite Htimers, Hclock.
    rewrite fire_due_last by lia. reflexivity.
  - destruct H as [H _]. rewrite H in Hpending. discriminate.
Qed.

Lemma pending_cleared_at_deadline_witness :
  let w' := final (run (requestImmediateUpdate driver) world_background) in
  pendingImmediateUpdate (vars w') = true /\
  60000 <= 60000 /\
  pendingImmediateUpdate (vars (elapse 60000 w')) = false.
Proof.
  split; [reflexivity|]. split; [lia|].
  apply (pending_cleared_at_deadline world_background driver 60000);
    [reflexivity | lia].
Defined.

(** ** Stopping and starting the foreground watch *)

(** What [stopTracking] does to the world. *)
Lemma stopTracking_run :
  forall w : World,
    let r := run stopTracking w in
    let m := vars w in
    let m' := vars (final r) in
    outcome r = Returned tt /\
    pendingImmediateUpdate m' = pendingImmediateUpdate m /\
    lastUpdateTime m' = lastUpdateTime m /\
    retryCount m' = retryCount m /\
    item (final r) = item w /\
    registered (final r) = registered w /\
    if existsb rejected (events r)
    then isTracking m' = isTracking m /\
         locationUpdateTimeout m' = locationUpdateTimeout m /\
         timers (final r) = timers w
    else isTracking m' = false /\
         locationSubscription m' = false /\
         (locationSubscription m = true -> watch (final r) = None) /\
         bg_updates (final r) = false /\
         locationUpdateTimeout m' = None /\
         timers (final r) =
           match locationUpdateTimeout m with
           | Some t =>
               filter (fun e => negb (Nat.eqb (fst e) t)) (timers w)
           | None => timers w
           end.
Proof.
  intros w r m m'. subst r m m'.
  change (satisfies stopTracking w
            (fun o wf es =>
               o = Returned tt /\
               pendingImmediateUpdate (vars wf) = pendingImmediateUpdate (vars w) /\
               lastUpdateTime (vars wf) = lastUpdateTime (vars w) /\
               retryCount (vars wf) = retryCount (vars w) /\
               item wf = item w /\
               registered wf = registered w /\
               if existsb rejected es
               then isTracking (vars wf) = isTracking (vars w) /\
                    locationUpdateTimeout (vars wf)
                    = locationUpdateTimeout (vars w) /\
                    timers wf = timers w
               else isTracking (vars wf) = false /\
                    locationSubscription (vars wf) = false /\
                    (locationSubscription (vars w) = true -> watch wf = None) /\
                    bg_updates wf = false /\
                    locationUpdateTimeout (vars wf) = None /\
                    timers wf =
                      match locationUpdateTimeout (vars w) with
                      | Some t =>
                          filter (fun e => negb (Nat.eqb (fst e) t)) (timers w)
                      | None => timers w
                      end)).
  unfold stopTracking.
  apply sat_try_catch. sat.
  all: cbn [app existsb rejected orb].
  all: repeat match goal with
              | H : _ = _ |- _ => rewrite H
              end.
  all: repeat split; try reflexivity; try assumption; try discriminate;
    try congruence.
Qed.

(** X8: [stopTracking] never throws and never touches the pending flag, the
    last update time, [retryCount] or the cached sample.  When none of its
    platform calls is rejected, the service is marked as not tracking, the
    subscription and its watch are gone, the location updates are stopped and
    the deadline timer of an immediate update is cancelled; when one is
    rejected, the error is swallowed: the tracking mark and the timers stay as
    they were. *)
Theorem stopTracking_effect :
  forall w : World,
    let r := run stopTracking w in
    let m := vars w in
    let m' := vars (final r) in
    outcome r = Returned tt /\
    pendingImmediateUpdate m' = pendingImmediateUpdate m /\
    lastUpdateTime m' = lastUpdateTime m /\
    retryCount m' = retryCount m /\
    item (final r) = item w /\
    registered (final r) = registered w /\
    if existsb rejected (events r)
    then isTracking m' = isTracking m /\
         locationUpdateTimeout m' = locationUpdateTimeout m /\
         timers (final r) = timers w
    else isTracking m' = false /\
         locationSubscription m' = false /\
         (locationSubscription m = true -> watch (final r) = None) /\
         bg_updates (final r) = false /\
         locationUpdateTimeout m' = None /\
         timers (final r) =
           match locationUpdateTimeout m with
           | Some t =>
               filter (fun e => negb (Nat.eqb (fst e) t)) (timers w)
           | None => timers w
           end.
Proof. exact stopTracking_run. Qed.

Lemma stopTracking_effect_witness :
  let w := final (run (startForegroundTracking driver true)
                    (boot env_ok Android None)) in
  locationSubscription (vars w) = true /\
  watch w <> None /\
  watch (final (run stopTracking w)) = None.
Proof.
  intros w. split; [reflexivity|]. split; [discriminate|].
  pose proof (stopTracking_effect w) as H. cbv zeta in H.
  destruct H as (_ & _ & _ & _ & _ & _ & H).
  change (existsb rejected (events (run stopTracking w))) with false in H.
  cbv iota in H.
  exact (proj1 (proj2 (proj2 H)) eq_refl).
Defined.

Lemma existsb_TaskName_In (t : TaskName) (l : list TaskName) :
  existsb (TaskName_eqb t) l = true <-> In t l.
Proof.
  rewrite existsb_exists. split.
  - intros [x [Hin Heq]]. destruct t, x; try discriminate; exact Hin.
  - intros Hin. exists t. split; [exact Hin|]. destruct t; reflexivity.
Qed.

Lemma stopTracking_registers_nothing (w : World) :
  existsb registers_fetch (events (run stopTracking w)) = false.
Proof.
  assert (H : Forall (fun e => registers_fetch e = false)
                     (events (run stopTracking w))).
  { apply all_steps_run with (P := no_register) (S := any_sync).
    - intros X c w'. destruct c; cbn; intros Hc; try contradiction;
        repeat oracle; reflexivity.
    - unfold stopTracking.
      all_steps_tac;
        first [ apply all_steps_await; exact I
              | apply all_steps_sync; exact I ]. }
  induction H as [|e es He _ IH]; [reflexivity|].
  cbn. rewrite He, IH. reflexivity.
Qed.

(** What the caller of [stopTracking] may rely on. *)
Lemma sat_stopTracking (w : World) (Q : Post unit) :
  (forall w' es,
      registered w' = registered w ->
      existsb registers_fetch es = false ->
      Q (Returned tt) w' es) ->
  satisfies stopTracking w Q.
Proof.
  intros H. unfold satisfies.
  destruct (stopTracking_run w) as (Ho & _ & _ & _ & _ & Hreg & _).
  rewrite Ho. apply H; [exact Hreg | apply stopTracking_registers_nothing].
Qed.

(** X9: [startForegroundTracking] never throws.  When it answers true the
    service is marked as tracking, the subscription is set, the watch of the
    user runs with the options of the mode, and both background tasks are
    registered.  When the permission is neither held nor granted it answers
    false after these two calls, with nothing stopped, registered or
    watched.  A background fetch task that is already registered is not
    registered again: it keeps the minimum interval of its first
    registration whatever the mode asked for now. *)
Theorem startForegroundTracking_effect :
  forall (w : World) (userId : UserId) (isAvailable : bool),
    let r := run (startForegroundTracking userId isAvailable) w in
    (exists ok, outcome r = Returned ok) /\
    (outcome r = Returned true ->
     isTracking (vars (final r)) = true /\
     locationSubscription (vars (final r)) = true /\
     watch (final r) = Some (userId, foregroundOptions isAvailable) /\
     In BACKGROUND_FETCH_TASK (registered (final r)) /\
     In IMMEDIATE_UPDATE_TASK (registered (final r))) /\
    (os (env w) (n_os w) <> Some true ->
     os (env w) (S (n_os w)) <> Some true ->
     r = (Returned false, tick_os (tick_os w),
          [EvOs (os (env w) (n_os w)); EvOs (os (env w) (S (n_os w)))])) /\
    (In BACKGROUND_FETCH_TASK (registered w) ->
     existsb registers_fetch (events r) = false).
Proof.
  intros w userId isAvailable r. subst r.
  assert (Hrefused :
    os (env w) (n_os w) <> Some true ->
    os (env w) (S (n_os w)) <> Some true ->
    run (startForegroundTracking userId isAvailable) w
    = (Returned false, tick_os (tick_os w),
       [EvOs (os (env w) (n_os w)); EvOs (os (env w) (S (n_os w)))])).
  { intros H1 H2. unfold startForegroundTracking. cbn.
    destruct (os (env w) (n_os w)) as [[|]|]; try congruence; cbn;
      destruct (os (env w) (S (n_os w))) as [[|]|]; try congruence;
      reflexivity. }
  enough (H : satisfies (startForegroundTracking userId isAvailable) w
            (fun o wf es =>
               (exists ok, o = Returned ok) /\
               (o = Returned true ->
                isTracking (vars wf) = true /\
                locationSubscription (vars wf) = true /\
                watch wf = Some (userId, foregroundOptions isAvailable) /\
                In BACKGROUND_FETCH_TASK (registered wf) /\
                In IMMEDIATE_UPDATE_TASK (registered wf)) /\
               (In BACKGROUND_FETCH_TASK (registered w) ->
                existsb registers_fetch es = false))).
  { destruct H as (H1 & H2 & H3). repeat split; try assumption.
    - apply H2; assumption.
    - apply H2; assumption.
    - apply H2; assumption.
    - apply H2; assumption.
    - apply H2; assumption. }
  unfold startForegroundTracking.
  sat.
  all: try (apply sat_stopTracking; intros W1 E1 Hreg Hnone; sat).
  all: cbn [app existsb registers_fetch orb negb].
  all: repeat rewrite existsb_app.
  all: try rewrite Hnone.
  all: cbn [app existsb registers_fetch orb negb].
  all: repeat match goal with
              | H : negb _ = true |- _ => apply negb_true_iff in H
              | H : negb _ = false |- _ => apply negb_false_iff in H
              end.
  all: split; [eexists; reflexivity|].
  all: split; [try (intros Hfalse; discriminate Hfalse)|].
  all: try (intros _;
            repeat match goal with
                   | H : existsb (TaskName_eqb _) _ = true |- _ =>
                       apply existsb_TaskName_In in H
                   end;
            repeat split; cbn [In]; auto; fail).
  all: try (intros Hin; reflexivity).
  all: intros Hin; change (registered W1 = registered w) in Hreg;
    rewrite <- Hreg in Hin; apply existsb_TaskName_In in Hin; congruence.
Qed.

Lemma startForegroundTracking_effect_witness :
  let r := run (startForegroundTracking driver true)
             (boot env_ok Android None) in
  outcome r = Returned true /\
  watch (final r) = Some (driver, foregroundOptions true) /\
  In BACKGROUND_FETCH_TASK (registered (final r)).
Proof.
  intros r. split; [reflexivity|].
  destruct (proj1 (proj2 (startForegroundTracking_effect
                            (boot env_ok Android None) driver true))
              eq_refl) as (_ & _ & Hwatch & Hfetch & _).
  split; [exact Hwatch | exact Hfetch].
Defined.

(** ** More on the ladder and on the retry loop *)

(** X10: [getLocationWithFallback] answers true only when its last call was
    a transmission that succeeded; it answers false only after all three
    tiers failed and the cache could not be read or held no coordinates, and
    it throws only after the transmission of the cached sample failed. *)
Theorem getLocationWithFallback_outcomes :
  forall (w : World) (userId : UserId),
    let r := run (getLocationWithFallback userId) w in
    match outcome r with
    | Returned true => last (sends (events r)) false = true
    | Returned false =>
        tiers (events r) = [High; Balanced; Low] /\
        forallb negb (sends (events r)) = true /\
        exists x, last (events r) (EvDelay 0) = EvGetItem x /\
                  match x with
                  | Some stored => usable stored = None
                  | None => True
                  end
    | Thrown =>
        tiers (events r) = [High; Balanced; Low] /\
        forallb negb (sends (events r)) = true /\
        exists u lat lng, last (events r) (EvDelay 0) = EvSend u lat lng false
    | Diverged => False
    end.
Proof.
  intros w userId r. subst r.
  change (satisfies (getLocationWithFallback userId) w
            (fun o wf es =>
               match o with
               | Returned true => last (sends es) false = true
               | Returned false =>
                   tiers es = [High; Balanced; Low] /\
                   forallb negb (sends es) = true /\
                   exists x, last es (EvDelay 0) = EvGetItem x /\
                             match x with
                             | Some stored => usable stored = None
                             | None => True
                             end
               | Thrown =>
                   tiers es = [High; Balanced; Low] /\
                   forallb negb (sends es) = true /\
                   exists u lat lng,
                     last es (EvDelay 0) = EvSend u lat lng false
               | Diverged => False
               end)).
  unfold getLocationWithFallback, tryAccuracy, saveLastKnownLocation,
    getLastKnownLocation, updateDriverLocation, usable.
  sat.
  all: cbn [app].
  all: try reflexivity.
  all: try (split; [reflexivity|]; split; [reflexivity|];
            eexists; split; [reflexivity|]; first [exact I | assumption]).
  all: try (split; [reflexivity|]; split; [reflexivity|];
            do 3 eexists; reflexivity).
Qed.

Lemma positionLoop_backoff (fuel : nat) (options : LocationErrorHandlingOptions)
    (mr : Z) :
  forall (retries : Z) (acc : Accuracy) (w : World),
    let r := run (positionLoop fuel options mr retries acc) w in
    acquired (events r) = answered (outcome r) /\
    (forall (i : nat) (d : Z),
        nth_error (delays (events r)) i = Some d ->
        d = 1000 * Z.min 3 (retries + Z.of_nat i + 1)) /\
    (attemptRecovery options = false ->
     (length (tiers (events r)) <= 1)%nat /\ delays (events r) = []).
Proof.
  induction fuel as [|fuel IH]; intros retries acc w r; subst r.
  - cbn. repeat split; try lia. intros [|i] d H; discriminate H.
  - cbn [positionLoop].
    destruct (retries <=? mr) eqn:Hle.
    + cbn.
      destruct (gps (env w) (n_gps w) acc) as [l|]; cbn.
      * repeat split; try lia. intros [|i] d H; discriminate H.
      * destruct (retries + 1 >? mr) eqn:Hgt.
        -- destruct (showAlerts options); cbn.
           ++ destruct (os (env w) (n_os w)); cbn; repeat split; try lia;
                intros [|i] d H; discriminate H.
           ++ repeat split; try lia. intros [|i] d H; discriminate H.
        -- destruct (attemptRecovery options) eqn:Hrec; cbn.
           ++ match goal with
              | |- context [run (positionLoop fuel options mr ?r' ?a') ?w'] =>
                  pose proof (IH r' a' w') as IH';
                  destruct (run (positionLoop fuel options mr r' a') w')
                    as [[o w''] es]
              end.
              cbn in *. destruct IH' as (H1 & H2 & _).
              split; [exact H1|]. split; [|discriminate].
              intros [|i] d H; cbn in H.
              ** injection H as <-.
                 replace (retries + Z.of_nat 0 + 1) with (retries + 1) by lia.
                 reflexivity.
              ** rewrite (H2 i d H).
                 replace (retries + Z.of_nat (S i) + 1)
                   with (retries + 1 + Z.of_nat i + 1) by lia.
                 reflexivity.
           ++ repeat split; try lia. intros [|i] d H; discriminate H.
    + cbn. repeat split; try lia. intros [|i] d H; discriminate H.
Qed.

(** X11: [getCurrentPositionWithErrorHandling] answers the one sample the
    position source gave, if it gave one, and stops at it.  Without the
    permission it makes no attempt at all.  The wait before the next attempt
    is 1000 ms times the number of failures so far, capped at 3000 ms,
    whatever the budget; without [attemptRecovery] there is one attempt at
    most and no wait. *)
Theorem getCurrentPosition_retries :
  forall (w : World) (options : LocationErrorHandlingOptions)
         (accuracy : Accuracy),
    let r := run (getCurrentPositionWithErrorHandling options accuracy) w in
    acquired (events r) = answered (outcome r) /\
    (os (env w) (n_os w) <> Some true -> tiers (events r) = []) /\
    (forall (i : nat) (d : Z),
        nth_error (delays (events r)) i = Some d ->
        d = 1000 * Z.min 3 (Z.of_nat i + 1)) /\
    (attemptRecovery options = false ->
     (length (tiers (events r)) <= 1)%nat /\ delays (events r) = []).
Proof.
  intros w options accuracy r. subst r.
  unfold getCurrentPositionWithErrorHandling. rewrite run_bind.
  cbn [run await perform].
  destruct (os (env w) (n_os w)) as [[|]|]; cbn [negb].
  - pose proof (positionLoop_backoff (loopFuel (effectiveMaxRetries options))
                  options (effectiveMaxRetries options) 0 accuracy (tick_os w))
      as H.
    cbv zeta in H.
    destruct (run (positionLoop (loopFuel (effectiveMaxRetries options)) options
                     (effectiveMaxRetries options) 0 accuracy) (tick_os w))
      as [[o w''] es].
    unfold outcome, events in *.
    cbn [fst snd app tiers delays acquired] in *.
    destruct H as (H1 & H2 & H3).
    repeat split; try assumption; try congruence; try (apply H3; assumption).
  - destruct (showAlerts options); oracles; repeat split; try lia;
      try (intros [|i] d H; discriminate H).
  - destruct (showAlerts options); oracles; repeat split; try lia;
      try (intros [|i] d H; discriminate H).
Qed.

Lemma getCurrentPosition_retries_witness :
  let options := mkOptions false false None in
  let r := run (getCurrentPositionWithErrorHandling options High)
             (boot env_no_gps Android None) in
  attemptRecovery options = false /\
  (length (tiers (events r)) <= 1)%nat /\
  delays (events r) = [].
Proof.
  intros options r. split; [reflexivity|].
  apply (proj2 (proj2 (proj2 (getCurrentPosition_retries
                                (boot env_no_gps Android None) options High)))).
  reflexivity.
Defined.

(** ** Permissions, settings and alerts *)

Lemma ask_all_pbind {A B : Type} (p : Prog A) (f : A -> Prog B) (d : Device) :
  forall n : nat,
    ask_all (pbind p f) d n =
    match ask_all p d n with
    | (Answered a, qs) =>
        let '(o, qs') := ask_all (f a) d (n + length qs) in (o, qs ++ qs')
    | (Rejected e, qs) => (Rejected e, qs)
    | (Unsettled, qs) => (Unsettled, qs)
    end.
Proof.
  induction p as [a|e| |X q k IH]; intros n; cbn.
  - rewrite Nat.add_0_r. destruct (ask_all (f a) d n) as [o qs']. reflexivity.
  - reflexivity.
  - reflexivity.
  - rewrite IH.
    destruct (ask_all (k (d n X q)) d (S n)) as [[a|e|] qs]; try reflexivity.
    cbn [length]. rewrite Nat.add_succ_r. cbn [Nat.add].
    destruct (ask_all (f a) d (S (n + length qs))) as [o qs']. reflexivity.
Qed.

Lemma ask_all_ptry {A : Type} (p : Prog A) (h : Error -> Prog A) (d : Device) :
  forall n : nat,
    ask_all (ptry p h) d n =
    match ask_all p d n with
    | (Rejected e, qs) =>
        let '(o, qs') := ask_all (h e) d (n + length qs) in (o, qs ++ qs')
    | r => r
    end.
Proof.
  induction p as [a|e| |X q k IH]; intros n; cbn.
  - reflexivity.
  - rewrite Nat.add_0_r. destruct (ask_all (h e) d n) as [o qs']. reflexivity.
  - reflexivity.
  - rewrite IH.
    destruct (ask_all (k (d n X q)) d (S n)) as [[a|e|] qs]; try reflexivity.
    cbn [length]. rewrite Nat.add_succ_r. cbn [Nat.add].
    destruct (ask_all (h e) d (S (n + length qs))) as [o qs']. reflexivity.
Qed.

(** Case analysis on the next answer of the device. *)
Ltac answer d :=
  match goal with
  | |- context [d ?n ?X ?q] => destruct (d n X q) as [?|?] eqn:?
  end.

Ltac replies d := cbn; repeat (answer d; cbn).

Lemma prefix_correct_app (p s : string) :
  String.prefix p s = true <-> exists rest, s = (p ++ rest)%string.
Proof.
  revert s. induction p as [|a p IH]; intros s.
  - destruct s; cbn; (split; [intros _; eexists; reflexivity | reflexivity]).
  - destruct s as [|b s]; cbn.
    + split; [discriminate | intros [rest H]; discriminate H].
    + destruct (Ascii.ascii_dec a b) as [->|Hne].
      * rewrite IH. split; intros [rest H]; exists rest.
        -- rewrite H. reflexivity.
        -- injection H as H. exact H.
      * split; [discriminate|]. intros [rest H]. injection H as H1 _.
        congruence.
Qed.

(** [includes] is the test for a substring. *)
Lemma includes_spec (s sub : string) :
  includes s sub = true <->
  exists before after, s = (before ++ sub ++ after)%string.
Proof.
  induction s as [|a s IH]; cbn [includes].
  - rewrite orb_false_r, prefix_correct_app. split.
    + intros [rest H]. exists EmptyString, rest. exact H.
    + intros [[|b before] [after H]]; [exists after; exact H|discriminate H].
  - rewrite orb_true_iff, prefix_correct_app, IH. split.
    + intros [[rest H] | [before [after H]]].
      * exists EmptyString, rest. exact H.
      * exists (String a before), after. rewrite H. reflexivity.
    + intros [[|b before] [after H]].
      * left. exists after. exact H.
      * right. injection H as _ H. exists before, after. exact H.
Qed.

Lemma truthy_app_permission (before after : string) (sub : string) :
  sub <> EmptyString -> truthy (before ++ sub ++ after) = true.
Proof.
  intros Hsub. destruct before as [|a before]; cbn; [|reflexivity].
  destruct sub as [|b sub]; [congruence|reflexivity].
Qed.

Lemma analyzeLocationError_canRecover (error : Error) :
  canRecover (analyzeLocationError error)
  = recoverable (error_type (analyzeLocationError error)).
Proof.
  unfold analyzeLocationError.
  repeat match goal with
         | |- context [if ?b then _ else _] => destruct b
         end; reflexivity.
Qed.

(** X12: [analyzeLocationError] says an error can be recovered from exactly
    for the permission, disabled, timeout and accuracy types.  The tests run
    in a fixed order: a message with the word permission anywhere in it is a
    permission error whatever else it says, and a message about the network
    or the connection that passed the three tests before is not recoverable
    even if it speaks of accuracy.  An error without a message, or with an
    empty one, is of the unknown type with the default message. *)
Theorem analyzeLocationError_table :
  (forall error : Error,
      canRecover (analyzeLocationError error)
      = recoverable (error_type (analyzeLocationError error))) /\
  (forall before after : string,
      analyzeLocationError (Some (before ++ "permission" ++ after)%string)
      = mkErrorInfo LocationErrorType.PERMISSION_DENIED
                    "Location permission was denied" true) /\
  (forall error : Error,
      mentions error "permission" = false ->
      mentions error "disabled" = false ->
      mentions error "Location services are not enabled" = false ->
      mentions error "timeout" = false ->
      mentions error "network" || mentions error "connection" = true ->
      analyzeLocationError error
      = mkErrorInfo LocationErrorType.NETWORK_ERROR
                    "Network error while getting location" false) /\
  analyzeLocationError None
    = mkErrorInfo LocationErrorType.UNKNOWN "Unknown location error occurred"
                  false /\
  analyzeLocationError (Some EmptyString) = analyzeLocationError None.
Proof.
  split; [|split; [|split; [|split]]].
  - exact analyzeLocationError_canRecover.
  - intros before after. unfold analyzeLocationError.
    assert (H : mentions (Some (before ++ "permission" ++ after)%string)
                         "permission" = true).
    { unfold mentions. rewrite truthy_app_permission by discriminate.
      apply includes_spec. exists before, after. reflexivity. }
    rewrite H. reflexivity.
  - intros error H1 H2 H3 H4 H5. unfold analyzeLocationError.
    rewrite H1, H2, H3, H4, H5. reflexivity.
  - reflexivity.
  - reflexivity.
Qed.

Lemma analyzeLocationError_table_witness :
  mentions (Some "network accuracy"%string) "permission" = false /\
  mentions (Some "network accuracy"%string) "disabled" = false /\
  mentions (Some "network accuracy"%string)
           "Location services are not enabled" = false /\
  mentions (Some "network accuracy"%string) "timeout" = false /\
  mentions (Some "network accuracy"%string) "network"
    || mentions (Some "network accuracy"%string) "connection" = true /\
  analyzeLocationError (Some "network accuracy"%string)
    = mkErrorInfo LocationErrorType.NETWORK_ERROR
                  "Network error while getting location" false.
Proof.
  repeat (split; [reflexivity|]).
  apply (proj1 (proj2 (proj2 analyzeLocationError_table))); reflexivity.
Defined.

(** X13: [openLocationSettings] never throws and always settles.  It asks
    for the settings of the app on iOS and for the location settings on
    Android, and only when that call is rejected does it fall back to the
    settings of the app. *)
Theorem openLocationSettings_settles :
  forall (os : PlatformOS) (d : Device) (n : nat),
    let first := match os with
                 | Ios => asked LinkingOpenSettings
                 | Android => asked StartActivityAsync
                 end in
    let r := ask_all (openLocationSettings os) d n in
    fst r = Answered tt /\
    (snd r = [first] \/ snd r = [first; asked LinkingOpenSettings]) /\
    (match os with
     | Ios => d n _ LinkingOpenSettings
     | Android => d n _ StartActivityAsync
     end = Ok tt -> snd r = [first]).
Proof.
  intros os d n first r. subst first r.
  unfold openLocationSettings.
  destruct os; replies d;
    repeat match goal with u : unit |- _ => destruct u end;
    repeat split; auto; discriminate.
Qed.

Lemma openLocationSettings_settles_witness :
  willing 0%nat _ StartActivityAsync = Ok tt /\
  snd (ask_all (openLocationSettings Android) willing 0)
  = [asked StartActivityAsync].
Proof.
  split; [reflexivity|].
  exact (proj2 (proj2 (openLocationSettings_settles Android willing 0))
           eq_refl).
Defined.

Lemma showLocationErrorAlert_true (os : PlatformOS)
    (errorInfo : LocationErrorInfo) (d : Device) (n : nat) :
  canRecover errorInfo = recoverable (error_type errorInfo) ->
  fst (ask_all (showLocationErrorAlert os errorInfo) d n) = Answered true ->
  canRecover errorInfo = true.
Proof.
  destruct errorInfo as [t m c]. cbn [canRecover error_type].
  intros -> H. destruct t; try reflexivity; exfalso; revert H;
    unfold showLocationErrorAlert; cbn;
    destruct (d n _ _) as [[|[|i]]|e]; cbn; try discriminate;
    destruct i; discriminate.
Qed.

(** X14: [handleLocationError] answers true only for an error that
    [analyzeLocationError] calls recoverable, whatever the user presses.
    Without alerts, and without the callback, it asks nothing and answers
    what the analysis says. *)
Theorem handleLocationError_advice :
  forall (os : PlatformOS) (error : Error)
         (options : LocationErrorHandlingOptions) (onError : bool)
         (d : Device) (n : nat),
    let r := ask_all (handleLocationError os error options onError) d n in
    (fst r = Answered true ->
     canRecover (analyzeLocationError error) = true) /\
    (showAlerts options = false -> onError = false ->
     r = (Answered (canRecover (analyzeLocationError error)), [])).
Proof.
  intros os error options onError d n r. subst r.
  unfold handleLocationError. split.
  - pose proof (analyzeLocationError_canRecover error) as Htable.
    rewrite ask_all_pbind.
    destruct (ask_all (if onError then _ else _) d n) as [[[]|e|] qs];
      cbn [fst]; try discriminate.
    destruct (showAlerts options).
    + rewrite ask_all_pbind.
      pose proof (showLocationErrorAlert_true os _ d (n + length qs) Htable)
        as Halert.
      destruct (ask_all (showLocationErrorAlert os _) d (n + length qs))
        as [[b|e|] qs']; cbn in *; try discriminate.
      intros H. apply Halert. congruence.
    + cbn. congruence.
  - intros -> ->. reflexivity.
Qed.

Lemma handleLocationError_advice_witness :
  showAlerts (mkOptions false true None) = false /\
  ask_all (handleLocationError Android (Some "timeout"%string)
             (mkOptions false true None) false) willing 0
  = (Answered true, []).
Proof.
  split; [reflexivity|].
  exact (proj2 (handleLocationError_advice Android (Some "timeout"%string)
                  (mkOptions false true None) false willing 0)
           eq_refl eq_refl).
Defined.

(** X15: [verifyLocationServicesEnabled] never throws.  When it answers
    true, the last thing it did was to ask whether the services are enabled,
    and the answer was yes.  Without alerts it asks that one question and
    nothing else, and a rejected question counts as no.  With alerts, when
    the services are off and the user presses Open Settings, the settings
    are opened twice, once by the button and once by the function itself,
    before the services are checked again. *)
Theorem verifyLocationServicesEnabled_outcomes :
  forall (os : PlatformOS) (options : LocationErrorHandlingOptions)
         (d : Device) (n : nat),
    let r := ask_all (verifyLocationServicesEnabled os options) d n in
    (forall e, fst r <> Rejected e) /\
    (fst r = Answered true ->
     last (snd r) (asked LinkingOpenSettings) = asked HasServicesEnabledAsync /\
     d (n + length (snd r) - 1)%nat _ HasServicesEnabledAsync = Ok true) /\
    (showAlerts options = false ->
     r = (Answered (match d n _ HasServicesEnabledAsync with
                    | Ok enabled => enabled
                    | Err _ => false
                    end), [asked HasServicesEnabledAsync])) /\
    (showAlerts options = true ->
     d n _ HasServicesEnabledAsync = Ok false ->
     (forall title message buttons,
         d (S n) _ (AlertAlert title message buttons) = Ok 1%nat) ->
     (2 <= count_if opens_the_settings (snd r))%nat /\
     exists enabled, fst r = Answered enabled).
Proof.
  intros os options d n r. subst r.
  unfold verifyLocationServicesEnabled, showLocationErrorAlert,
    openLocationSettings.
  split; [|split; [|split]].
  - intros e. paths; discriminate.
  - paths; try discriminate; intros H; inversion H; subst.
    all: rewrite ?Nat.add_1_r, ?Nat.add_succ_r, ?Nat.add_0_r; cbn.
    all: rewrite ?Nat.sub_0_r; try (split; [reflexivity|assumption]).
    all: try discriminate.
    destruct x; [split; [reflexivity|assumption]|discriminate].
  - intros H. rewrite H. paths; try reflexivity.
    all: destruct x; try discriminate; reflexivity.
  - intros Halerts Hoff Hpress. rewrite Halerts. cbn. rewrite Hoff. cbn.
    rewrite Hpress. cbn. unfold count_if.
    destruct os; paths; split; eauto; cbn; lia.
Qed.

Lemma verifyLocationServicesEnabled_outcomes_witness :
  (2 <= count_if opens_the_settings
          (snd (ask_all (verifyLocationServicesEnabled Android DEFAULT_OPTIONS)
                  services_off 0)))%nat /\
  exists enabled,
    fst (ask_all (verifyLocationServicesEnabled Android DEFAULT_OPTIONS)
           services_off 0) = Answered enabled.
Proof.
  apply (proj2 (proj2 (proj2 (verifyLocationServicesEnabled_outcomes
                                Android DEFAULT_OPTIONS services_off 0))));
    reflexivity.
Defined.

(** X16: with its alerts off, as [getCurrentPositionWithErrorHandling] calls
    it, [requestLocationPermissionsWithErrorHandling] always settles with an
    answer, shows no alert and opens no settings.  It answers true exactly
    when the services are reported enabled, the foreground permission is
    granted and, on iOS, the request for the background permission is not
    rejected; what that request answers plays no part. *)
Theorem requestLocationPermissions_without_alerts :
  forall (os : PlatformOS) (options : LocationErrorHandlingOptions)
         (onError : bool) (d : Device) (n : nat),
    showAlerts options = false ->
    let r := ask_all
               (requestLocationPermissionsWithErrorHandling os options onError)
               d n in
    (exists granted, fst r = Answered granted) /\
    existsb is_alert (snd r) = false /\
    existsb opens_the_settings (snd r) = false /\
    (fst r = Answered true <->
     d n _ HasServicesEnabledAsync = Ok true /\
     d (S n) _ RequestForegroundPermissionsAsync = Ok Granted /\
     (os = Ios ->
      exists status,
        d (S (S n)) _ RequestBackgroundPermissionsAsync = Ok status)).
Proof.
  intros os options onError d n Halerts r. subst r.
  unfold requestLocationPermissionsWithErrorHandling,
    verifyLocationServicesEnabled.
  rewrite Halerts.
  destruct os; paths.
  all: repeat match goal with
         | x : bool |- _ => destruct x
         | x : PermissionStatus |- _ => destruct x
         end; try discriminate.
  all: (split; [eauto|split; [reflexivity|split; [reflexivity|]]]).
  all: split; [try discriminate; intros _
              | try (intros (H1 & H2 & H3); try congruence;
                     destruct H3 as [? ?]; congruence)].
  all: try (split; [assumption|split; [assumption|]]).
  all: try (intros _; eauto); try discriminate.
  all: repeat split; try reflexivity; intros; eauto; discriminate.
Qed.

Lemma requestLocationPermissions_without_alerts_witness :
  showAlerts (mkOptions false true None) = false /\
  fst (ask_all (requestLocationPermissionsWithErrorHandling Ios
                  (mkOptions false true None) false) willing 0)
  = Answered true.
Proof.
  split; [reflexivity|].
  apply (proj2 (proj2 (proj2 (requestLocationPermissions_without_alerts
                                Ios (mkOptions false true None) false
                                willing 0 eq_refl)))).
  repeat split. intros _. exists Granted. reflexivity.
Defined.

(** X17: [requestPermissions] always settles with an answer.  The answer is
    true exactly when the foreground permission is granted and no later
    request is rejected: the background request on iOS and the request for
    notifications.  What those two answer plays no part, but a rejection of
    either turns the answer to false although the foreground permission was
    granted.  When the foreground permission is refused nothing else is
    asked. *)
Theorem requestPermissions_answer :
  forall (os : PlatformOS) (d : Device) (n : nat),
    let r := ask_all (requestPermissions os) d n in
    let notifications := match os with Ios => S (S n) | Android => S n end in
    (exists granted, fst r = Answered granted) /\
    (fst r = Answered true <->
     d n _ RequestForegroundPermissionsAsync = Ok Granted /\
     (os = Ios ->
      exists status,
        d (S n) _ RequestBackgroundPermissionsAsync = Ok status) /\
     exists status,
       d notifications _ NotificationsRequestPermissionsAsync = Ok status) /\
    (d n _ RequestForegroundPermissionsAsync <> Ok Granted ->
     r = (Answered false, [asked RequestForegroundPermissionsAsync])).
Proof.
  intros os d n r notifications. subst r notifications.
  unfold requestPermissions.
  destruct os; paths.
  all: repeat match goal with
         | x : bool |- _ => destruct x
         | x : PermissionStatus |- _ => destruct x
         end; try discriminate.
  all: split; [eauto|split; [split|]].
  all: try discriminate; try congruence.
  all: try (intros _; repeat split; intros; eauto; discriminate).
  all: try (intros (H1 & H2 & [s H3]); try congruence;
            destruct (H2 eq_refl) as [s' H4]; congruence).
Qed.

Lemma requestPermissions_answer_witness :
  fst (ask_all (requestPermissions Ios) willing 0) = Answered true.
Proof.
  apply (proj1 (proj2 (requestPermissions_answer Ios willing 0))).
  repeat split; intros; exists Granted; reflexivity.
Defined.

(** X18: on a device whose permissions do not change in between,
    [hasAnyLocationPermission] says yes exactly when one of the two statuses
    that [getPermissionStatus] reports is granted.  This holds on both
    platforms and also when the device rejects the questions: then the one
    answers false and the other reports two undetermined statuses.  On
    Android the background status is the foreground one. *)
Theorem hasAnyLocationPermission_agrees :
  forall (os : PlatformOS) (d : Device) (n m : nat),
    steady d ->
    exists any foreground background,
      fst (ask_all (hasAnyLocationPermission os) d n) = Answered any /\
      fst (ask_all (getPermissionStatus os) d m)
      = Answered (foreground, background) /\
      any = is_granted foreground || is_granted background /\
      (os = Android -> background = foreground).
Proof.
  intros os d n m Hsteady.
  unfold hasAnyLocationPermission, getPermissionStatus.
  pose proof (proj1 (Hsteady n m)) as Hf.
  pose proof (proj2 (Hsteady (S n) (S m))) as Hb.
  destruct os; cbn; rewrite Hf;
    destruct (d m _ GetForegroundPermissionsAsync) as [f|e]; cbn;
    try rewrite Hb;
    try destruct (d (S m) _ GetBackgroundPermissionsAsync) as [b|e']; cbn;
    do 3 eexists; repeat split; try discriminate;
    try (destruct f; reflexivity).
Qed.

Lemma hasAnyLocationPermission_agrees_witness :
  exists any foreground background,
    fst (ask_all (hasAnyLocationPermission Ios) willing 0) = Answered any /\
    fst (ask_all (getPermissionStatus Ios) willing 5)
    = Answered (foreground, background) /\
    any = is_granted foreground || is_granted background /\
    (Ios = Android -> background = foreground).
Proof.
  apply (hasAnyLocationPermission_agrees Ios willing 0 5).
  intros n m. split; reflexivity.
Defined.

(** X19: [requestLocationPermissionsWithErrorHandling] answers true only
    when a request for the foreground permission was granted, with its
    alerts on or off.  Without an error callback it never throws.  With
    one, it can: when the request for the permission is rejected with the
    alerts on, the handler of the catch block runs the callback outside any
    try, and what the callback throws is what the caller gets. *)
Theorem requestLocationPermissions_grant :
  forall (os : PlatformOS) (options : LocationErrorHandlingOptions)
         (onError : bool) (d : Device) (n : nat),
    let r := ask_all
               (requestLocationPermissionsWithErrorHandling os options onError)
               d n in
    (onError = false -> forall e, fst r <> Rejected e) /\
    (fst r = Answered true ->
     exists m, d m _ RequestForegroundPermissionsAsync = Ok Granted) /\
    (forall e e' : Error,
        onError = true ->
        showAlerts options = true ->
        d n _ HasServicesEnabledAsync = Ok true ->
        d (S n) _ RequestForegroundPermissionsAsync = Err e ->
        (forall errorInfo, d (S (S n)) _ (OnError errorInfo) = Err e') ->
        r = (Rejected e',
             [asked HasServicesEnabledAsync;
              asked RequestForegroundPermissionsAsync;
              asked (OnError (analyzeLocationError e))])).
Proof.
  intros os options onError d n r. subst r.
  split; [|split].
  - intros ->.
    unfold requestLocationPermissionsWithErrorHandling,
      verifyLocationServicesEnabled, handleLocationError,
      showLocationErrorAlert, openLocationSettings.
    intros e. paths. all: discriminate.
  - unfold requestLocationPermissionsWithErrorHandling,
      verifyLocationServicesEnabled, handleLocationError,
      showLocationErrorAlert, openLocationSettings.
    paths. all: try discriminate.
    all: repeat match goal with
           | x : PermissionStatus |- _ => destruct x
           end; try discriminate; eauto.
  - intros e e' -> Halerts Hon Hfg Hcb.
    unfold requestLocationPermissionsWithErrorHandling,
      verifyLocationServicesEnabled, handleLocationError.
    rewrite Halerts. cbn. rewrite Hon. cbn. rewrite Hfg. cbn.
    rewrite Hcb. reflexivity.
Qed.

Lemma requestLocationPermissions_grant_witness :
  ask_all (requestLocationPermissionsWithErrorHandling Android
             DEFAULT_OPTIONS true) unwilling 0
  = (Rejected None,
     [asked HasServicesEnabledAsync;
      asked RequestForegroundPermissionsAsync;
      asked (OnError (analyzeLocationError None))]).
Proof.
  apply (proj2 (proj2 (requestLocationPermissions_grant
                         Android DEFAULT_OPTIONS true unwilling 0)) None None);
    reflexivity.
Defined.

(** ** The stored location and the screen of the driver *)

(** X20: [getLastLocation] never throws and changes nothing in the store.
    Run after [saveLastKnownLocation], it answers the coordinates and the
    timestamp just saved when both storage calls succeed, the item that was
    there before when only the write failed, and nothing when the read
    fails, whatever is stored. *)
Theorem getLastLocation_after_save :
  forall (w : World) (location : LocationObject),
    let saved := run (saveLastKnownLocation location) w in
    let r := run getLastLocation (final saved) in
    item (final r) = item (final saved) /\
    outcome r =
    Returned
      (if disk (env w) (S (n_disk w)) then
         if disk (env w) (n_disk w)
         then Some (mkStored (Some (coords location)) (timestamp location))
         else item w
       else None).
Proof.
  intros w location saved r. subst saved r.
  unfold getLastLocation, getLastKnownLocation, saveLastKnownLocation.
  paths; split; solve [reflexivity | symmetry; assumption | congruence].
Qed.

(** X21: the text for the last update.  A count of minutes is between 1
    and 59 and a count of hours between 1 and 23, each the whole part of the
    time since the update, and the plural mark is left out exactly for the
    count 1.  A timestamp less than a minute old, or in the future, reads
    Just now; one a day old or older is given as a date.  The screen shows
    Never exactly when the timestamp is not positive. *)
Theorem formatLastUpdateTime_ranges :
  forall now timestamp : Z,
    match formatLastUpdateTime now timestamp with
    | Never => False
    | JustNow => now - timestamp < 60000
    | MinutesAgo minutes plural =>
        1 <= minutes <= 59 /\
        60000 * minutes <= now - timestamp < 60000 * (minutes + 1) /\
        (plural = false <-> minutes = 1)
    | HoursAgo hours plural =>
        1 <= hours <= 23 /\
        3600000 * hours <= now - timestamp < 3600000 * (hours + 1) /\
        (plural = false <-> hours = 1)
    | LocaleString t => t = timestamp /\ 86400000 <= now - timestamp
    end /\
    (formattedTime now timestamp = Never <-> timestamp <= 0).
Proof.
  intros now timestamp. split.
  - unfold formatLastUpdateTime. cbv zeta.
    change (60 * 1000) with 60000. change (60 * 60 * 1000) with 3600000.
    change (24 * 60 * 60 * 1000) with 86400000.
    destruct (Z.ltb_spec (now - timestamp) 60000) as [H1|H1]; [exact H1|].
    destruct (Z.ltb_spec (now - timestamp) 3600000) as [H2|H2].
    + pose proof (Z.div_mod (now - timestamp) 60000 ltac:(lia)) as Hd.
      pose proof (Z.mod_pos_bound (now - timestamp) 60000 ltac:(lia)) as Hm.
      split; [lia|]. split; [lia|]. rewrite negb_false_iff. apply Z.eqb_eq.
    + destruct (Z.ltb_spec (now - timestamp) 86400000) as [H3|H3].
      * pose proof (Z.div_mod (now - timestamp) 3600000 ltac:(lia)) as Hd.
        pose proof (Z.mod_pos_bound (now - timestamp) 3600000 ltac:(lia))
          as Hm.
        split; [lia|]. split; [lia|]. rewrite negb_false_iff. apply Z.eqb_eq.
      * split; [reflexivity|exact H3].
  - unfold formattedTime, formatLastUpdateTime. cbv zeta.
    destruct (Z.gtb_spec timestamp 0) as [H|H].
    + split; [|lia].
      repeat match goal with
             | |- context [if ?b then _ else _] => destruct b
             end; discriminate.
    + split; [intros _; exact H|reflexivity].
Qed.

Lemma formatLastUpdateTime_ranges_witness :
  0 <= 0 /\ formattedTime 1730000000000 0 = Never.
Proof.
  split; [lia|].
  apply (proj2 (proj2 (formatLastUpdateTime_ranges 1730000000000 0))). lia.
Defined.
